(** * DetectTokensController: a shallow embedding and its properties

    Source: [app/scripts/controllers/detect-tokens.js].

    The controller polls a token catalog for contracts the selected
    account holds but has not added.  Its one asynchronous method,
    [detectNewTokens], is embedded as a tree of calls to the external
    collaborators (network store, token list, balance oracle, telemetry,
    token store); running the tree against an environment yields the trace
    of those calls.  The synchronous methods (constructor, setters,
    [restartTokenDetection], the subscription callbacks) pass the
    controller object and the timer table explicitly.

    Conventions: a value that may be [undefined] is an [option]; an
    object used as a map is the list of its own keys and values in
    enumeration order, and a property read on it also finds the names
    it inherits from [Object.prototype]; strings are ASCII; synchronous
    code that can throw returns a sum with the exception on the left. *)

From Stdlib Require Import String Ascii List ZArith Bool Arith Lia.
From Stdlib Require Import DecimalString DecimalNat FinFun.
Import ListNotations.

Local Open Scope string_scope.
Local Open Scope list_scope.

(** ** JavaScript values used by the controller *)

(** [String.prototype.toLowerCase] on the ASCII letters (addresses are
    hexadecimal strings). *)
Definition toLowerCase_ascii (c : ascii) : ascii :=
  let n := nat_of_ascii c in
  if (65 <=? n)%nat && (n <=? 90)%nat then ascii_of_nat (n + 32) else c.

Fixpoint toLowerCase (s : string) : string :=
  match s with
  | EmptyString => EmptyString
  | String c s' => String (toLowerCase_ascii c) (toLowerCase s')
  end.

(** Modelled from the spec: [isEqualCaseInsensitive] of
    [shared/modules/string-utils], which is not under src/.  The spec has
    address comparison case-insensitive throughout; both arguments are
    strings here, so the comparison is equality of the lower-cased strings. *)
Definition isEqualCaseInsensitive (value1 value2 : string) : bool :=
  String.eqb (toLowerCase value1) (toLowerCase value2).

(** Truthiness of a value that is a string or [undefined]. *)
Definition truthy_string (v : option string) : bool :=
  match v with
  | Some s => negb (String.eqb s "")
  | None => false
  end.

(** Truthiness of a value that is a boolean or [undefined]. *)
Definition truthy_bool (v : option bool) : bool :=
  match v with
  | Some b => b
  | None => false
  end.

(** Truthiness of a value that is an object or [undefined]. *)
Definition truthy_object {A : Type} (v : option A) : bool :=
  match v with
  | Some _ => true
  | None => false
  end.

(** Strict equality [===] on primitives that may be [undefined]. *)
Definition strict_eq_string (a b : option string) : bool :=
  match a, b with
  | Some x, Some y => String.eqb x y
  | None, None => true
  | _, _ => false
  end.

Definition strict_eq_bool (a b : option bool) : bool :=
  match a, b with
  | Some x, Some y => Bool.eqb x y
  | None, None => true
  | _, _ => false
  end.

(** [Array.prototype.slice(start, end)]: negative indices count from the
    end, both are clamped to the array, an empty range gives []. *)
Definition slice {A : Type} (l : list A) (start end_ : Z) : list A :=
  let len := Z.of_nat (length l) in
  let k := if (start <? 0)%Z then Z.max (len + start) 0 else Z.min start len in
  let final := if (end_ <? 0)%Z then Z.max (len + end_) 0 else Z.min end_ len in
  firstn (Z.to_nat (final - k)) (skipn (Z.to_nat k) l).

(** ** Data model *)

(** An entry of the token list (the catalog), as [detectNewTokens]
    destructures it. *)
Record TokenListEntry : Type := {
  entry_address : string;
  entry_symbol : string;
  entry_decimals : Z;
  entry_iconUrl : string;
  entry_aggregators : list string;
}.

(** The catalog object [tokenList]: its own enumerable keys in [for ... in]
    order, each with its entry. *)
Definition TokenList : Type := list (string * TokenListEntry).

Definition Object_keys {V : Type} (o : list (string * V)) : list string :=
  map fst o.

(** The properties a plain object inherits from [Object.prototype]: the
    methods, the [constructor] and the [__proto__] accessor.  None of
    them is enumerable. *)
Definition Object_prototype : list string :=
  [ "constructor"; "__defineGetter__"; "__defineSetter__"; "hasOwnProperty";
    "__lookupGetter__"; "__lookupSetter__"; "isPrototypeOf";
    "propertyIsEnumerable"; "toString"; "valueOf"; "__proto__";
    "toLocaleString" ].

(** What a property read finds: the value of an own property, or what
    [Object.prototype] holds under that name (a function, and for
    [__proto__] the prototype itself). *)
Inductive Property (V : Type) : Type :=
| Own (v : V)
| Inherited (name : string).

Arguments Own {V} v.
Arguments Inherited {V} name.

(** The value of an own property. *)
Fixpoint getOwnProperty {V : Type} (o : list (string * V)) (key : string)
  : option V :=
  match o with
  | [] => None
  | (k, v) :: o' => if String.eqb k key then Some v else getOwnProperty o' key
  end.

(** Property access [o[key]] on a plain object: an own property first,
    then the prototype; [None] is [undefined]. *)
Definition get {V : Type} (o : list (string * V)) (key : string)
  : option (Property V) :=
  match getOwnProperty o key with
  | Some v => Some (Own v)
  | None =>
    if existsb (String.eqb key) Object_prototype then Some (Inherited key)
    else None
  end.

(** A token as the tokens controller stores it. *)
Record Token : Type := {
  address : string;
  symbol : string;
  decimals : Z;
  image : string;
  aggregators : list string;
}.

(** An element of [tokensWithBalance], lines 143-149: the object built
    from the five properties destructured off [tokenList[key]].  Off a
    catalog entry they are all there; a value inherited from
    [Object.prototype] has none of the five, and every field of the
    object is [undefined]. *)
Inductive TokenWithBalance : Type :=
| TokenOf (token : Token)
| UndefinedToken.

(** What a thrown value can be in this file. *)
Inductive Exception : Type :=
| TypeError (what : string)
| Thrown (message : string).

(** ** The controller object *)

(** The fields of [this].  A collaborator the controller only calls is
    held as a reference ([Some tt] when set); the three known-address
    mirrors and the two preference mirrors hold values. *)
Record Controller : Type := {
  assetsContractController : option unit;
  tokensController : option unit;
  preferences : option unit;
  _handle : option nat;
  _network : option unit;
  web3 : option unit;
  _keyringMemStore : option unit;
  _tokenList : option unit;
  selectedAddress : option string;
  useTokenDetection : option bool;
  tokenAddresses : option (list string);
  hiddenTokens : option (list string);
  detectedTokens : option (list Token);
  _trackMetaMetricsEvent : option unit;
  isOpen : option bool;
  isUnlocked : option bool;
}.

(** [get isActive()]: [this.isOpen && this.isUnlocked], used as a
    condition. *)
Definition isActive (this : Controller) : bool :=
  truthy_bool (isOpen this) && truthy_bool (isUnlocked this).

(** ** Candidate selection (lines 96-112 of [detectNewTokens]) *)

(** [!array.find(pred)] on an array of strings: [find] returns the first
    matching element, and the negation tests that element's truthiness. *)
Definition not_find_string (pred : string -> bool) (array : list string) : bool :=
  negb (truthy_string (find pred array)).

(** [!array.find(pred)] on an array of objects. *)
Definition not_find_object {A : Type} (pred : A -> bool) (array : list A) : bool :=
  negb (truthy_object (find pred array)).

(** The condition of the [if] at lines 99-109, evaluated left to right
    with the short circuit of [&&]; reading [find] off an [undefined]
    mirror throws. *)
Definition isUnknownToken (this : Controller) (tokenAddress : string)
  : Exception + bool :=
  match tokenAddresses this with
  | None => inl (TypeError "this.tokenAddresses")
  | Some held =>
    if not_find_string
         (fun address => isEqualCaseInsensitive address tokenAddress) held
    then
      match hiddenTokens this with
      | None => inl (TypeError "this.hiddenTokens")
      | Some hidden =>
        if not_find_string
             (fun address => isEqualCaseInsensitive address tokenAddress) hidden
        then
          match detectedTokens this with
          | None => inl (TypeError "this.detectedTokens")
          | Some detected =>
            inr (not_find_object
                   (fun t => isEqualCaseInsensitive (address t) tokenAddress)
                   detected)
          end
        else inr false
      end
    else inr false
  end.

(** The [for (const tokenAddress in tokenList)] loop, pushing onto
    [tokensToDetect]. *)
Fixpoint tokensToDetect_loop (this : Controller) (keys : list string)
  : Exception + list string :=
  match keys with
  | [] => inr []
  | tokenAddress :: keys' =>
    match isUnknownToken this tokenAddress with
    | inl e => inl e
    | inr push =>
      match tokensToDetect_loop this keys' with
      | inl e => inl e
      | inr rest => inr (if push then tokenAddress :: rest else rest)
      end
    end
  end.

Definition tokensToDetect (this : Controller) (tokenList : TokenList)
  : Exception + list string :=
  tokensToDetect_loop this (Object_keys tokenList).

(** ** Batch split (lines 113-116) *)

Definition sliceOfTokensToDetect (tokensToDetect : list string)
  : list (list string) :=
  [ slice tokensToDetect 0 1000;
    slice tokensToDetect 1000 (Z.of_nat (length tokensToDetect) - 1) ].

(** ** Imported constants and helpers *)

(** What the file imports from modules that are not part of the
    controller: the time unit, the per-network detection switch and the
    labels of the telemetry event.  The development is parametric in
    them. *)
Class Imports : Type := {
  MINUTE : Z;
  isTokenDetectionEnabledForNetwork : string -> bool;
  EVENT_NAMES_TOKEN_DETECTED : string;
  EVENT_CATEGORIES_WALLET : string;
  TOKEN_STANDARDS_ERC20 : string;
  ASSET_TYPES_TOKEN : string;
}.

(** ** Telemetry event *)

Record EventProperties : Type := {
  tokens : list string;
  token_standard : string;
  asset_type : string;
}.

Record MetricsEvent : Type := {
  event : string;
  category : string;
  properties : EventProperties;
}.

(** ** Calls to the collaborators *)

(** The object [getBalancesInSingleCall] resolves to: token address to
    balance, only for non-zero balances. *)
Definition Balances : Type := list (string * N).

(** Outcome of one [getBalancesInSingleCall]: the call throws or its
    promise rejects, or it yields a value, [None] being a falsy one. *)
Inductive OracleResponse : Type :=
| OracleThrows (error : Exception)
| OracleReturns (result : option Balances).

(** Outcome of one [addDetectedTokens]. *)
Inductive StoreResponse : Type :=
| StoreResolves
| StoreRejects (error : Exception).

(** An [async] method body as the tree of its calls to the outside: each
    node is one call, its continuation takes what the call gave back.
    [Resolve] is the normal return, [Reject] an exception that leaves the
    method. *)
Inductive Async : Type :=
| Resolve
| Reject (error : Exception)
| NetworkChainId (k : string -> Async)
| TokenListState (k : TokenList -> Async)
| Web3SetProvider (k : Async)
| GetBalancesInSingleCall
    (account : option string) (tokensSlice : list string)
    (k : OracleResponse -> Async)
| Warn (message : string) (error : Exception) (k : Async)
| TrackMetaMetricsEvent (ev : MetricsEvent) (k : Async)
| AddDetectedTokens
    (tokensWithBalance : list TokenWithBalance) (k : StoreResponse -> Async).

(** ** The timer table *)

(** [setInterval] and [clearInterval]: the running repeating timers, each
    a handle with its period, and the next fresh handle.  A handle is a
    truthy value. *)
Record Timers : Type := {
  next_handle : nat;
  running : list (nat * Z);
}.

Definition setInterval (interval : Z) (timers : Timers) : nat * Timers :=
  (next_handle timers,
   {| next_handle := S (next_handle timers);
      running := (next_handle timers, interval) :: running timers |}).

Definition clearInterval (handle : nat) (timers : Timers) : Timers :=
  {| next_handle := next_handle timers;
     running := filter (fun t => negb (Nat.eqb (fst t) handle)) (running timers) |}.

Definition with_handle (this : Controller) (h : option nat) : Controller :=
  {| assetsContractController := assetsContractController this;
     tokensController := tokensController this;
     preferences := preferences this;
     _handle := h;
     _network := _network this;
     web3 := web3 this;
     _keyringMemStore := _keyringMemStore this;
     _tokenList := _tokenList this;
     selectedAddress := selectedAddress this;
     useTokenDetection := useTokenDetection this;
     tokenAddresses := tokenAddresses this;
     hiddenTokens := hiddenTokens this;
     detectedTokens := detectedTokens this;
     _trackMetaMetricsEvent := _trackMetaMetricsEvent this;
     isOpen := isOpen this;
     isUnlocked := isUnlocked this |}.

(** [set interval(interval)], lines 185-193: clear the timer in
    [_handle], if any, and arm a new one unless [interval] is falsy. *)
Definition set_interval (this : Controller) (interval : Z) (timers : Timers)
  : Controller * Timers :=
  let timers1 :=
    match _handle this with
    | Some h => clearInterval h timers
    | None => timers
    end in
  if (interval =? 0)%Z then (this, timers1)
  else
    let (h, timers2) := setInterval interval timers1 in
    (with_handle this (Some h), timers2).

Section DetectTokens.

Context {imports : Imports}.

(** [DEFAULT_INTERVAL = MINUTE * 3], line 11. *)
Definition DEFAULT_INTERVAL : Z := (MINUTE * 3)%Z.

(** ** Reconciliation of one batch result (lines 132-163) *)

(** The template string [`${symbol} - ${address}`] of line 141 over what
    line 137 destructured: an [undefined] prints as "undefined". *)
Definition eventTokensDetail (found : Property TokenListEntry) : string :=
  match found with
  | Own entry => (entry_symbol entry ++ " - " ++ entry_address entry)%string
  | Inherited _ => "undefined - undefined"
  end.

(** The object pushed onto [tokensWithBalance], lines 143-149. *)
Definition tokenWithBalance (found : Property TokenListEntry)
  : TokenWithBalance :=
  match found with
  | Own entry =>
    TokenOf {| address := entry_address entry;
               symbol := entry_symbol entry;
               decimals := entry_decimals entry;
               image := entry_iconUrl entry;
               aggregators := entry_aggregators entry |}
  | Inherited _ => UndefinedToken
  end.

(** The [for (const nonZeroTokenAddress of nonZeroTokenAddresses)] loop:
    destructuring [tokenList[nonZeroTokenAddress]] throws when the read
    gives [undefined], that is when the address is neither a key of the
    catalog nor a name inherited from [Object.prototype]; otherwise one
    string is pushed onto [eventTokensDetails] and one object onto
    [tokensWithBalance]. *)
Fixpoint collectTokensWithBalance
    (tokenList : TokenList) (nonZeroTokenAddresses : list string)
  : Exception + (list string * list TokenWithBalance) :=
  match nonZeroTokenAddresses with
  | [] => inr ([], [])
  | nonZeroTokenAddress :: rest =>
    match get tokenList nonZeroTokenAddress with
    | None => inl (TypeError "tokenList[nonZeroTokenAddress]")
    | Some found =>
      match collectTokensWithBalance tokenList rest with
      | inl e => inl e
      | inr (eventTokensDetails, tokensWithBalance) =>
        inr (eventTokensDetail found :: eventTokensDetails,
             tokenWithBalance found :: tokensWithBalance)
      end
    end
  end.

(** The telemetry event of lines 153-161. *)
Definition tokenDetectedEvent (eventTokensDetails : list string) : MetricsEvent :=
  {| event := EVENT_NAMES_TOKEN_DETECTED;
     category := EVENT_CATEGORIES_WALLET;
     properties :=
       {| tokens := eventTokensDetails;
          token_standard := TOKEN_STANDARDS_ERC20;
          asset_type := ASSET_TYPES_TOKEN |} |}.

(** Lines 132-164, the part of the loop body after the oracle answered
    with [result]; [next] is the rest of the loop. *)
Definition reconcile
    (this : Controller) (tokenList : TokenList) (result : option Balances)
    (next : Async) : Async :=
  match result with
  | None => next
  | Some balances =>
    match collectTokensWithBalance tokenList (Object_keys balances) with
    | inl e => Reject e
    | inr (eventTokensDetails, tokensWithBalance) =>
      if (0 <? length tokensWithBalance)%nat then
        match _trackMetaMetricsEvent this with
        | None => Reject (TypeError "this._trackMetaMetricsEvent")
        | Some _ =>
          TrackMetaMetricsEvent (tokenDetectedEvent eventTokensDetails)
            match tokensController this with
            | None => Reject (TypeError "this.tokensController")
            | Some _ =>
              AddDetectedTokens tokensWithBalance
                (fun stored =>
                   match stored with
                   | StoreResolves => next
                   | StoreRejects e => Reject e
                   end)
            end
        end
      else next
    end
  end.

(** ** The batch loop (lines 117-165) *)

Definition fetch_failed_message : string :=
  "MetaMask - DetectTokensController single call balance fetch failed".

(** [for (const tokensSlice of sliceOfTokensToDetect)]: one oracle call
    per slice, awaited before the next; a throw inside the [try] (also
    the one from calling through a null [assetsContractController]) is
    logged and ends the method.  The fields of [this] are those the
    method started with: a subscription callback that runs while the
    method awaits is not part of a run. *)
Fixpoint forEachSlice
    (this : Controller) (tokenList : TokenList) (slices : list (list string))
  : Async :=
  match slices with
  | [] => Resolve
  | tokensSlice :: rest =>
    match assetsContractController this with
    | None =>
      Warn fetch_failed_message (TypeError "this.assetsContractController")
        Resolve
    | Some _ =>
      GetBalancesInSingleCall (selectedAddress this) tokensSlice
        (fun response =>
           match response with
           | OracleThrows error => Warn fetch_failed_message error Resolve
           | OracleReturns result =>
             reconcile this tokenList result (forEachSlice this tokenList rest)
           end)
    end
  end.

(** ** [detectNewTokens] (lines 81-166) *)

Definition detectNewTokens (this : Controller) : Async :=
  if negb (isActive this) then Resolve
  else if negb (truthy_bool (useTokenDetection this)) then Resolve
  else
    match _network this with
    | None => Reject (TypeError "this._network")
    | Some _ =>
      NetworkChainId (fun chainId =>
        if negb (isTokenDetectionEnabledForNetwork chainId) then Resolve
        else
          match _tokenList this with
          | None => Reject (TypeError "this._tokenList")
          | Some _ =>
            TokenListState (fun tokenList =>
              match web3 this with
              | None => Reject (TypeError "this.web3")
              | Some _ =>
                Web3SetProvider
                  match tokensToDetect this tokenList with
                  | inl e => Reject e
                  | inr candidates =>
                    forEachSlice this tokenList
                      (sliceOfTokensToDetect candidates)
                  end
              end)
          end)
    end.

(** ** [restartTokenDetection] (lines 173-179) *)

(** Returns the controller, the timer table and the [detectNewTokens]
    runs it started.  The run is started first and not awaited;
    [detectNewTokens] never assigns to [this], so it sees the same fields
    whether it reads them before or after the interval is set. *)
Definition restartTokenDetection (this : Controller) (timers : Timers)
  : Controller * Timers * list Async :=
  if negb (isActive this && truthy_string (selectedAddress this))
  then (this, timers, [])
  else
    let (this', timers') := set_interval this DEFAULT_INTERVAL timers in
    (this', timers', [detectNewTokens this]).

(** The callback the interval setter hands to [setInterval], line 191. *)
Definition onInterval (this : Controller) : Async := detectNewTokens this.

(** ** Subscription callbacks *)

Definition with_preferences
    (this : Controller) (sel : option string) (use : option bool) : Controller :=
  {| assetsContractController := assetsContractController this;
     tokensController := tokensController this;
     preferences := preferences this;
     _handle := _handle this;
     _network := _network this;
     web3 := web3 this;
     _keyringMemStore := _keyringMemStore this;
     _tokenList := _tokenList this;
     selectedAddress := sel;
     useTokenDetection := use;
     tokenAddresses := tokenAddresses this;
     hiddenTokens := hiddenTokens this;
     detectedTokens := detectedTokens this;
     _trackMetaMetricsEvent := _trackMetaMetricsEvent this;
     isOpen := isOpen this;
     isUnlocked := isUnlocked this |}.

Definition with_known_tokens
    (this : Controller) (held hidden : list string) (detected : list Token)
  : Controller :=
  {| assetsContractController := assetsContractController this;
     tokensController := tokensController this;
     preferences := preferences this;
     _handle := _handle this;
     _network := _network this;
     web3 := web3 this;
     _keyringMemStore := _keyringMemStore this;
     _tokenList := _tokenList this;
     selectedAddress := selectedAddress this;
     useTokenDetection := useTokenDetection this;
     tokenAddresses := Some held;
     hiddenTokens := Some hidden;
     detectedTokens := Some detected;
     _trackMetaMetricsEvent := _trackMetaMetricsEvent this;
     isOpen := isOpen this;
     isUnlocked := isUnlocked this |}.

Definition with_isUnlocked (this : Controller) (unlocked : option bool)
  : Controller :=
  {| assetsContractController := assetsContractController this;
     tokensController := tokensController this;
     preferences := preferences this;
     _handle := _handle this;
     _network := _network this;
     web3 := web3 this;
     _keyringMemStore := _keyringMemStore this;
     _tokenList := _tokenList this;
     selectedAddress := selectedAddress this;
     useTokenDetection := useTokenDetection this;
     tokenAddresses := tokenAddresses this;
     hiddenTokens := hiddenTokens this;
     detectedTokens := detectedTokens this;
     _trackMetaMetricsEvent := _trackMetaMetricsEvent this;
     isOpen := isOpen this;
     isUnlocked := unlocked |}.

(** The state a preferences notification delivers. *)
Record PreferencesState : Type := {
  state_selectedAddress : option string;
  state_useTokenDetection : option bool;
}.

(** The callback subscribed to [preferences.store], lines 57-66. *)
Definition onPreferencesChange
    (this : Controller) (timers : Timers) (state : PreferencesState)
  : Controller * Timers * list Async :=
  if negb (strict_eq_string (selectedAddress this) (state_selectedAddress state))
     || negb (strict_eq_bool (useTokenDetection this)
                (state_useTokenDetection state))
  then
    restartTokenDetection
      (with_preferences this
         (state_selectedAddress state) (state_useTokenDetection state))
      timers
  else (this, timers, []).

(** The state a tokens-controller notification delivers; an absent
    property takes the default [[]] of the callback's parameter. *)
Record TokensState : Type := {
  state_tokens : option (list Token);
  state_ignoredTokens : option (list string);
  state_detectedTokens : option (list Token);
}.

Definition or_empty {A : Type} (v : option (list A)) : list A :=
  match v with
  | Some l => l
  | None => []
  end.

(** The callback subscribed to [tokensController], lines 67-75. *)
Definition onTokensControllerChange (this : Controller) (state : TokensState)
  : Controller :=
  with_known_tokens this
    (map address (or_empty (state_tokens state)))
    (or_empty (state_ignoredTokens state))
    (or_empty (state_detectedTokens state)).

(** The callback subscribed to [keyringMemStore], lines 216-223. *)
Definition onKeyringMemStoreChange
    (this : Controller) (timers : Timers) (unlocked : option bool)
  : Controller * Timers * list Async :=
  if negb (strict_eq_bool (isUnlocked this) unlocked) then
    let this' := with_isUnlocked this unlocked in
    if truthy_bool unlocked then restartTokenDetection this' timers
    else (this', timers, [])
  else (this, timers, []).

(** ** The constructor (lines 31-76) *)

(** The options object.  A collaborator is given or absent; the
    preferences and tokens controllers come with the state they have at
    construction, which the constructor reads. *)
Record Config : Type := {
  config_interval : option Z;
  config_preferences : option PreferencesState;
  config_network : option unit;
  config_keyringMemStore : option unit;
  config_tokenList : option unit;
  config_tokensController : option (list Token * list string * list Token);
  config_assetsContractController : option unit;
  config_trackMetaMetricsEvent : option unit;
}.

Inductive Subscription : Type :=
| KeyringMemStoreSubscription
| PreferencesSubscription
| TokensControllerSubscription.

Definition presence {A : Type} (v : option A) : option unit :=
  match v with
  | Some _ => Some tt
  | None => None
  end.

Definition subscribe_if {A : Type} (v : option A) (s : Subscription)
  : list Subscription :=
  match v with
  | Some _ => [s]
  | None => []
  end.

(** The object before any field is assigned. *)
Definition blank : Controller :=
  {| assetsContractController := None;
     tokensController := None;
     preferences := None;
     _handle := None;
     _network := None;
     web3 := None;
     _keyringMemStore := None;
     _tokenList := None;
     selectedAddress := None;
     useTokenDetection := None;
     tokenAddresses := None;
     hiddenTokens := None;
     detectedTokens := None;
     _trackMetaMetricsEvent := None;
     isOpen := None;
     isUnlocked := None |}.

(** [new DetectTokensController(config)]: the controller, the timer
    table after [this.interval = interval], and the subscriptions
    registered, in order.  Every read through an absent collaborator goes
    through [?.] or a setter that returns early, so no branch throws. *)
Definition constructor (config : Config) (timers : Timers)
  : Controller * Timers * list Subscription :=
  let interval :=
    match config_interval config with
    | Some i => i
    | None => DEFAULT_INTERVAL
    end in
  let (armed, timers') := set_interval blank interval timers in
  ({| assetsContractController := config_assetsContractController config;
      tokensController := presence (config_tokensController config);
      preferences := presence (config_preferences config);
      _handle := _handle armed;
      _network := config_network config;
      web3 := config_network config;
      _keyringMemStore := config_keyringMemStore config;
      _tokenList := config_tokenList config;
      selectedAddress :=
        match config_preferences config with
        | Some state => state_selectedAddress state
        | None => None
        end;
      useTokenDetection :=
        match config_preferences config with
        | Some state => state_useTokenDetection state
        | None => None
        end;
      tokenAddresses :=
        match config_tokensController config with
        | Some (tokens, _, _) => Some (map address tokens)
        | None => None
        end;
      hiddenTokens :=
        match config_tokensController config with
        | Some (_, ignoredTokens, _) => Some ignoredTokens
        | None => None
        end;
      detectedTokens :=
        match config_tokensController config with
        | Some (_, _, detectedTokens) => Some detectedTokens
        | None => None
        end;
      _trackMetaMetricsEvent := config_trackMetaMetricsEvent config;
      isOpen := None;
      isUnlocked := None |},
   timers',
   subscribe_if (config_keyringMemStore config) KeyringMemStoreSubscription
   ++ subscribe_if (config_preferences config) PreferencesSubscription
   ++ subscribe_if (config_tokensController config) TokensControllerSubscription).

End DetectTokens.

(** ** Running a method against an environment *)

(** One completed call, with what it gave back. *)
Inductive Event : Type :=
| ChainIdRead (chainId : string)
| TokenListRead (tokenList : TokenList)
| ProviderSet
| BalancesFetched
    (account : option string) (tokensSlice : list string)
    (response : OracleResponse)
| Warned (message : string) (error : Exception)
| Tracked (ev : MetricsEvent)
| DetectedTokensAdded
    (tokensWithBalance : list TokenWithBalance) (response : StoreResponse).

(** The collaborators' behaviour during one run: the state the stores
    hold, and what the oracle and the token store answer, which may
    depend on everything that happened before in the run. *)
Record Environment : Type := {
  provider_chainId : string;
  tokenList_state : TokenList;
  getBalancesInSingleCall :
    list Event -> option string -> list string -> OracleResponse;
  addDetectedTokens : list Event -> list TokenWithBalance -> StoreResponse;
}.

Inductive Outcome : Type :=
| Resolved
| Rejected (error : Exception).

(** [run env past p]: the events of [p] after the events [past], and how
    the method ends. *)
Fixpoint run (env : Environment) (past : list Event) (p : Async)
  : list Event * Outcome :=
  match p with
  | Resolve => ([], Resolved)
  | Reject e => ([], Rejected e)
  | NetworkChainId k =>
    let ev := ChainIdRead (provider_chainId env) in
    let (evs, out) := run env (past ++ [ev]) (k (provider_chainId env)) in
    (ev :: evs, out)
  | TokenListState k =>
    let ev := TokenListRead (tokenList_state env) in
    let (evs, out) := run env (past ++ [ev]) (k (tokenList_state env)) in
    (ev :: evs, out)
  | Web3SetProvider k =>
    let (evs, out) := run env (past ++ [ProviderSet]) k in
    (ProviderSet :: evs, out)
  | GetBalancesInSingleCall account tokensSlice k =>
    let response := getBalancesInSingleCall env past account tokensSlice in
    let ev := BalancesFetched account tokensSlice response in
    let (evs, out) := run env (past ++ [ev]) (k response) in
    (ev :: evs, out)
  | Warn message error k =>
    let (evs, out) := run env (past ++ [Warned message error]) k in
    (Warned message error :: evs, out)
  | TrackMetaMetricsEvent ev k =>
    let (evs, out) := run env (past ++ [Tracked ev]) k in
    (Tracked ev :: evs, out)
  | AddDetectedTokens tokensWithBalance k =>
    let response := addDetectedTokens env past tokensWithBalance in
    let ev := DetectedTokensAdded tokensWithBalance response in
    let (evs, out) := run env (past ++ [ev]) (k response) in
    (ev :: evs, out)
  end.

(** Projections of a trace. *)

(** The batches sent to the oracle, in order. *)
Fixpoint oracle_calls (evs : list Event) : list (list string) :=
  match evs with
  | [] => []
  | BalancesFetched _ tokensSlice _ :: evs' => tokensSlice :: oracle_calls evs'
  | _ :: evs' => oracle_calls evs'
  end.

(** The token lists written to the detected-token store, in order. *)
Fixpoint store_writes (evs : list Event) : list (list TokenWithBalance) :=
  match evs with
  | [] => []
  | DetectedTokensAdded tokensWithBalance _ :: evs' =>
    tokensWithBalance :: store_writes evs'
  | _ :: evs' => store_writes evs'
  end.

(** The telemetry events emitted, in order. *)
Fixpoint telemetry (evs : list Event) : list MetricsEvent :=
  match evs with
  | [] => []
  | Tracked ev :: evs' => ev :: telemetry evs'
  | _ :: evs' => telemetry evs'
  end.

(** The reads of the catalog. *)
Fixpoint catalog_reads (evs : list Event) : list TokenList :=
  match evs with
  | [] => []
  | TokenListRead tokenList :: evs' => tokenList :: catalog_reads evs'
  | _ :: evs' => catalog_reads evs'
  end.

(** The warnings logged. *)
Fixpoint warnings (evs : list Event) : list (string * Exception) :=
  match evs with
  | [] => []
  | Warned message error :: evs' => (message, error) :: warnings evs'
  | _ :: evs' => warnings evs'
  end.

(** ** The candidate list, as the specification words it *)

(** [known_in set a]: some member of [set] equals [a] up to case. *)
Definition known_in (set : list string) (a : string) : bool :=
  existsb (fun x => isEqualCaseInsensitive x a) set.

(** An address is a candidate when it is absent from the held, the hidden
    and the detected addresses. *)
Definition is_candidate
    (held hidden : list string) (detected : list Token) (a : string) : bool :=
  negb (known_in held a)
  && negb (known_in hidden a)
  && negb (known_in (map address detected) a).

(** The catalog addresses absent from all three sets, in catalog order. *)
Definition candidate_list
    (catalog : TokenList) (held hidden : list string) (detected : list Token)
  : list string :=
  filter (is_candidate held hidden detected) (Object_keys catalog).

(** ** Notions used in the statements *)

(** Sequencing of runs: what follows a run that resolved. *)
Definition and_then
    (env : Environment) (past : list Event)
    (first : list Event * Outcome) (next : Async) : list Event * Outcome :=
  match snd first with
  | Resolved =>
    (fst first ++ fst (run env (past ++ fst first) next),
     snd (run env (past ++ fst first) next))
  | Rejected e => (fst first, Rejected e)
  end.

Definition after (ev : Event) (r : list Event * Outcome) : list Event * Outcome :=
  (ev :: fst r, snd r).

(** The events of reconciling one batch result, the loop set aside. *)
Definition reconciled
    {imports : Imports} (env : Environment) (this : Controller)
    (tokenList : TokenList) (past : list Event) (result : option Balances)
  : list Event * Outcome :=
  run env past (reconcile this tokenList result Resolve).

(** The token built from a catalog entry, and its line in the telemetry
    event. *)
Definition discovery (entry : TokenListEntry) : Token :=
  {| address := entry_address entry;
     symbol := entry_symbol entry;
     decimals := entry_decimals entry;
     image := entry_iconUrl entry;
     aggregators := entry_aggregators entry |}.

Definition symbol_and_address (t : Token) : string :=
  (symbol t ++ " - " ++ address t)%string.

(** The line of a written object in the telemetry event. *)
Definition detail (t : TokenWithBalance) : string :=
  match t with
  | TokenOf token => symbol_and_address token
  | UndefinedToken => "undefined - undefined"
  end.

(** What [tokenList[key]] makes of a key of the batch result: the token
    of the catalog entry under that key, or, the key being no key of the
    catalog but a name inherited from [Object.prototype], the object
    without fields. *)
Definition found_under (tokenList : TokenList) (key : string)
    (t : TokenWithBalance) : Prop :=
  (exists entry,
     getOwnProperty tokenList key = Some entry /\ t = TokenOf (discovery entry))
  \/ (getOwnProperty tokenList key = None
      /\ In key Object_prototype /\ t = UndefinedToken).

(** The discovery list of a batch result: nothing for a falsy result,
    else what the loop over its keys collects. *)
Definition discoveries (tokenList : TokenList) (result : option Balances)
  : Exception + (list string * list TokenWithBalance) :=
  match result with
  | None => inr ([], [])
  | Some balances =>
    collectTokensWithBalance tokenList (Object_keys balances)
  end.

(** ** What a tick relies on *)

(** The oracle answers about the tokens it is asked about and no
    other. *)
Definition answers_within_batch (env : Environment) : Prop :=
  forall past account tokensSlice balances,
    getBalancesInSingleCall env past account tokensSlice
    = OracleReturns (Some balances) ->
    incl (Object_keys balances) tokensSlice.

(** The catalog lists every token under its own address, up to case, and
    no two of its keys are equal up to case. *)
Definition keyed_by_address (tokenList : TokenList) : Prop :=
  (forall key entry,
     In (key, entry) tokenList ->
     isEqualCaseInsensitive (entry_address entry) key = true)
  /\ NoDup (map toLowerCase (Object_keys tokenList)).

(** Modelled from the spec: [addDetectedTokens] of the tokens controller,
    which is not under src/.  The spec gives the detected-token store
    append semantics: the tokens written are added to the detected
    tokens; the tokens and the ignored tokens stay as they are.  The
    controller then notifies its subscribers with that state. *)
Definition addDetected (state : TokensState) (written : list Token)
  : TokensState :=
  {| state_tokens := state_tokens state;
     state_ignoredTokens := state_ignoredTokens state;
     state_detectedTokens :=
       Some (or_empty (state_detectedTokens state) ++ written) |}.

(** The timer table once the timer in [_handle], if any, is cleared. *)
Definition cleared (this : Controller) (timers : Timers) : Timers :=
  match _handle this with
  | Some h => clearInterval h timers
  | None => timers
  end.

(** ** The collaborator setters on their own (lines 198-234) *)

Definition with_network (this : Controller) (network web3' : option unit)
  : Controller :=
  {| assetsContractController := assetsContractController this;
     tokensController := tokensController this;
     preferences := preferences this;
     _handle := _handle this;
     _network := network;
     web3 := web3';
     _keyringMemStore := _keyringMemStore this;
     _tokenList := _tokenList this;
     selectedAddress := selectedAddress this;
     useTokenDetection := useTokenDetection this;
     tokenAddresses := tokenAddresses this;
     hiddenTokens := hiddenTokens this;
     detectedTokens := detectedTokens this;
     _trackMetaMetricsEvent := _trackMetaMetricsEvent this;
     isOpen := isOpen this;
     isUnlocked := isUnlocked this |}.

Definition with_keyringMemStore (this : Controller) (store : option unit)
  : Controller :=
  {| assetsContractController := assetsContractController this;
     tokensController := tokensController this;
     preferences := preferences this;
     _handle := _handle this;
     _network := _network this;
     web3 := web3 this;
     _keyringMemStore := store;
     _tokenList := _tokenList this;
     selectedAddress := selectedAddress this;
     useTokenDetection := useTokenDetection this;
     tokenAddresses := tokenAddresses this;
     hiddenTokens := hiddenTokens this;
     detectedTokens := detectedTokens this;
     _trackMetaMetricsEvent := _trackMetaMetricsEvent this;
     isOpen := isOpen this;
     isUnlocked := isUnlocked this |}.

Definition with_tokenList (this : Controller) (list : option unit)
  : Controller :=
  {| assetsContractController := assetsContractController this;
     tokensController := tokensController this;
     preferences := preferences this;
     _handle := _handle this;
     _network := _network this;
     web3 := web3 this;
     _keyringMemStore := _keyringMemStore this;
     _tokenList := list;
     selectedAddress := selectedAddress this;
     useTokenDetection := useTokenDetection this;
     tokenAddresses := tokenAddresses this;
     hiddenTokens := hiddenTokens this;
     detectedTokens := detectedTokens this;
     _trackMetaMetricsEvent := _trackMetaMetricsEvent this;
     isOpen := isOpen this;
     isUnlocked := isUnlocked this |}.

(** [set network(network)], lines 198-204: a falsy value is ignored,
    another one is stored and a new [Web3] is made for it. *)
Definition set_network (this : Controller) (network : option unit)
  : Controller :=
  match network with
  | None => this
  | Some n => with_network this (Some n) (Some tt)
  end.

(** [set keyringMemStore(keyringMemStore)], lines 211-224: a falsy value
    is ignored, another one is stored and subscribed to. *)
Definition set_keyringMemStore (this : Controller) (store : option unit)
  : Controller * list Subscription :=
  match store with
  | None => (this, [])
  | Some k => (with_keyringMemStore this (Some k), [KeyringMemStoreSubscription])
  end.

(** [set tokenList(tokenList)], lines 229-234. *)
Definition set_tokenList (this : Controller) (list : option unit)
  : Controller :=
  match list with
  | None => this
  | Some l => with_tokenList this (Some l)
  end.

(** ** The entry points of the controller, as steps *)

(** What can happen to a constructed controller through this file: an
    assignment to one of its four setters, a call of
    [restartTokenDetection], the timer firing, and a notification on one
    of its three subscriptions. *)
Inductive Operation : Type :=
| AssignInterval (interval : Z)
| AssignNetwork (network : option unit)
| AssignKeyringMemStore (store : option unit)
| AssignTokenList (list : option unit)
| CallRestart
| TimerFires
| NotifyPreferences (state : PreferencesState)
| NotifyTokens (state : TokensState)
| NotifyKeyring (unlocked : option bool).

Section Steps.

Context {imports : Imports}.

(** One operation: the controller and the timer table after it, and the
    [detectNewTokens] runs it started. *)
Definition step (op : Operation) (this : Controller) (timers : Timers)
  : Controller * Timers * list Async :=
  match op with
  | AssignInterval interval =>
    let (this', timers') := set_interval this interval timers in
    (this', timers', [])
  | AssignNetwork network => (set_network this network, timers, [])
  | AssignKeyringMemStore store =>
    (fst (set_keyringMemStore this store), timers, [])
  | AssignTokenList list => (set_tokenList this list, timers, [])
  | CallRestart => restartTokenDetection this timers
  | TimerFires => (this, timers, [onInterval this])
  | NotifyPreferences state => onPreferencesChange this timers state
  | NotifyTokens state => (onTokensControllerChange this state, timers, [])
  | NotifyKeyring unlocked => onKeyringMemStoreChange this timers unlocked
  end.

(** A sequence of operations, the runs started collected in order. *)
Fixpoint steps (ops : list Operation) (this : Controller) (timers : Timers)
  : Controller * Timers * list Async :=
  match ops with
  | [] => (this, timers, [])
  | op :: ops' =>
    let '(this1, timers1, runs1) := step op this timers in
    let '(this2, timers2, runs2) := steps ops' this1 timers1 in
    (this2, timers2, runs1 ++ runs2)
  end.

(** The controller as [new DetectTokensController(config)] leaves it,
    with a timer table of its own, after a sequence of operations. *)
Definition lifetime (config : Config) (ops : list Operation)
  : Controller * Timers * list Async :=
  let '(this, timers, _) :=
    constructor config {| next_handle := 0; running := [] |} in
  steps ops this timers.

End Steps.

(** Every running timer of the table is the one in [_handle], and there
    is at most one. *)
Definition one_timer (this : Controller) (timers : Timers) : Prop :=
  (forall h i, In (h, i) (running timers) -> _handle this = Some h)
  /\ length (running timers) <= 1.

(** ** The shape of a tick *)

(** The three reads a tick makes before the batch loop. *)
Definition prelude (env : Environment) : list Event :=
  [ChainIdRead (provider_chainId env);
   TokenListRead (tokenList_state env);
   ProviderSet].

(** The store writes that were rejected. *)
Fixpoint store_rejections (evs : list Event) : list Exception :=
  match evs with
  | [] => []
  | DetectedTokensAdded _ (StoreRejects e) :: evs' => e :: store_rejections evs'
  | _ :: evs' => store_rejections evs'
  end.

Section LoopTraces.

Context {imports : Imports}.
Variable this : Controller.
Variable tokenList : TokenList.

(** The traces the batch loop can leave, with how the method ends: the
    cases of one turn of the loop, read off lines 117-165. *)
Inductive loop_trace : list (list string) -> list Event -> Outcome -> Prop :=
| loop_end :
    loop_trace [] [] Resolved
| loop_no_oracle s rest :
    assetsContractController this = None ->
    loop_trace (s :: rest)
      [Warned fetch_failed_message (TypeError "this.assetsContractController")]
      Resolved
| loop_oracle_throws s rest error :
    assetsContractController this <> None ->
    loop_trace (s :: rest)
      [BalancesFetched (selectedAddress this) s (OracleThrows error);
       Warned fetch_failed_message error]
      Resolved
| loop_unknown_key s rest result e :
    assetsContractController this <> None ->
    discoveries tokenList result = inl e ->
    loop_trace (s :: rest)
      [BalancesFetched (selectedAddress this) s (OracleReturns result)]
      (Rejected e)
| loop_nothing_found s rest result details evs out :
    assetsContractController this <> None ->
    discoveries tokenList result = inr (details, []) ->
    loop_trace rest evs out ->
    loop_trace (s :: rest)
      (BalancesFetched (selectedAddress this) s (OracleReturns result) :: evs)
      out
| loop_no_hook s rest result details found :
    assetsContractController this <> None ->
    discoveries tokenList result = inr (details, found) ->
    found <> [] ->
    _trackMetaMetricsEvent this = None ->
    loop_trace (s :: rest)
      [BalancesFetched (selectedAddress this) s (OracleReturns result)]
      (Rejected (TypeError "this._trackMetaMetricsEvent"))
| loop_no_store s rest result details found :
    assetsContractController this <> None ->
    discoveries tokenList result = inr (details, found) ->
    found <> [] ->
    _trackMetaMetricsEvent this <> None ->
    tokensController this = None ->
    loop_trace (s :: rest)
      [BalancesFetched (selectedAddress this) s (OracleReturns result);
       Tracked (tokenDetectedEvent details)]
      (Rejected (TypeError "this.tokensController"))
| loop_store_rejects s rest result details found e :
    assetsContractController this <> None ->
    discoveries tokenList result = inr (details, found) ->
    found <> [] ->
    loop_trace (s :: rest)
      [BalancesFetched (selectedAddress this) s (OracleReturns result);
       Tracked (tokenDetectedEvent details);
       DetectedTokensAdded found (StoreRejects e)]
      (Rejected e)
| loop_stored s rest result details found evs out :
    assetsContractController this <> None ->
    discoveries tokenList result = inr (details, found) ->
    found <> [] ->
    loop_trace rest evs out ->
    loop_trace (s :: rest)
      (BalancesFetched (selectedAddress this) s (OracleReturns result)
         :: Tracked (tokenDetectedEvent details)
         :: DetectedTokensAdded found StoreResolves
         :: evs)
      out.

End LoopTraces.

(** * Sample inputs *)

(** Values for the imported constants: a minute in milliseconds,
    detection enabled on chain 0x1 only, and labels. *)
Definition sample_imports : Imports :=
  {| MINUTE := 60000;
     isTokenDetectionEnabledForNetwork := fun chainId => String.eqb chainId "0x1";
     EVENT_NAMES_TOKEN_DETECTED := "Token Detected";
     EVENT_CATEGORIES_WALLET := "Wallet";
     TOKEN_STANDARDS_ERC20 := "ERC20";
     ASSET_TYPES_TOKEN := "TOKEN" |}.

Definition no_timers : Timers := {| next_handle := 0; running := [] |}.

(** A controller with every collaborator set, the gate open, detection
    on, an account selected and no known token. *)
Definition sample_controller : Controller :=
  {| assetsContractController := Some tt;
     tokensController := Some tt;
     preferences := Some tt;
     _handle := None;
     _network := Some tt;
     web3 := Some tt;
     _keyringMemStore := Some tt;
     _tokenList := Some tt;
     selectedAddress := Some "0xacc0";
     useTokenDetection := Some true;
     tokenAddresses := Some [];
     hiddenTokens := Some [];
     detectedTokens := Some [];
     _trackMetaMetricsEvent := Some tt;
     isOpen := Some true;
     isUnlocked := Some true |}.

(** The same controller with the session locked. *)
Definition locked_controller : Controller :=
  with_isUnlocked sample_controller (Some false).

(** The same controller with the detection preference off. *)
Definition detection_off_controller : Controller :=
  with_preferences sample_controller (Some "0xacc0") (Some false).

(** The same controller with no account selected. *)
Definition no_account_controller : Controller :=
  with_preferences sample_controller None (Some true).

(** A catalog of three tokens. *)
Definition entry_of (a s : string) : TokenListEntry :=
  {| entry_address := a;
     entry_symbol := s;
     entry_decimals := 18;
     entry_iconUrl := "";
     entry_aggregators := [] |}.

Definition abc_catalog : TokenList :=
  [ ("0xaaa1", entry_of "0xaaa1" "AAA");
    ("0xbbb2", entry_of "0xbbb2" "BBB");
    ("0xccc3", entry_of "0xccc3" "CCC") ].

(** The sample controller holding the first token (in another case) and
    hiding the second. *)
Definition abc_controller : Controller :=
  with_known_tokens sample_controller ["0xAAA1"] ["0xbbb2"] [].

(** A catalog of [n] tokens with the addresses 0x0, 0x1, ... in
    decimal. *)
Definition sample_address (n : nat) : string :=
  String "0" (String "x" (NilEmpty.string_of_uint (Nat.to_uint n))).

Definition sample_keys (n : nat) : list string :=
  map sample_address (seq 0 n).

Definition sample_catalog (n : nat) : TokenList :=
  map (fun i => (sample_address i, entry_of (sample_address i) "TKN")) (seq 0 n).

(** An environment on chain 0x1 whose oracle finds no balance. *)
Definition quiet_env (catalog : TokenList) : Environment :=
  {| provider_chainId := "0x1";
     tokenList_state := catalog;
     getBalancesInSingleCall := fun _ _ _ => OracleReturns (Some []);
     addDetectedTokens := fun _ _ => StoreResolves |}.

(** An environment whose oracle always fails. *)
Definition failing_env (catalog : TokenList) : Environment :=
  {| provider_chainId := "0x1";
     tokenList_state := catalog;
     getBalancesInSingleCall := fun _ _ _ => OracleThrows (Thrown "timeout");
     addDetectedTokens := fun _ _ => StoreResolves |}.

(** An environment whose oracle finds a balance for the first token of
    the batch on its first call and fails on every later call. *)
Definition second_call_fails_env (catalog : TokenList) : Environment :=
  {| provider_chainId := "0x1";
     tokenList_state := catalog;
     getBalancesInSingleCall :=
       fun past _ tokensSlice =>
         match oracle_calls past with
         | [] =>
           OracleReturns
             (Some (map (fun a => (a, 5%N)) (firstn 1 tokensSlice)))
         | _ :: _ => OracleThrows (Thrown "timeout")
         end;
     addDetectedTokens := fun _ _ => StoreResolves |}.

(** The options object with no collaborator at all, with the default
    interval and with one given. *)
Definition empty_config : Config :=
  {| config_interval := None;
     config_preferences := None;
     config_network := None;
     config_keyringMemStore := None;
     config_tokenList := None;
     config_tokensController := None;
     config_assetsContractController := None;
     config_trackMetaMetricsEvent := None |}.

Definition interval_only_config : Config :=
  {| config_interval := Some 5000%Z;
     config_preferences := None;
     config_network := None;
     config_keyringMemStore := None;
     config_tokenList := None;
     config_tokensController := None;
     config_assetsContractController := None;
     config_trackMetaMetricsEvent := None |}.

(** The sample controller without the oracle collaborator. *)
Definition no_oracle_controller : Controller :=
  {| assetsContractController := None;
     tokensController := Some tt;
     preferences := Some tt;
     _handle := None;
     _network := Some tt;
     web3 := Some tt;
     _keyringMemStore := Some tt;
     _tokenList := Some tt;
     selectedAddress := Some "0xacc0";
     useTokenDetection := Some true;
     tokenAddresses := Some [];
     hiddenTokens := Some [];
     detectedTokens := Some [];
     _trackMetaMetricsEvent := Some tt;
     isOpen := Some true;
     isUnlocked := Some true |}.

(** The sample controller without a tokens controller, its mirrors
    undefined. *)
Definition no_mirrors_controller : Controller :=
  {| assetsContractController := Some tt;
     tokensController := None;
     preferences := Some tt;
     _handle := None;
     _network := Some tt;
     web3 := Some tt;
     _keyringMemStore := Some tt;
     _tokenList := Some tt;
     selectedAddress := Some "0xacc0";
     useTokenDetection := Some true;
     tokenAddresses := None;
     hiddenTokens := None;
     detectedTokens := None;
     _trackMetaMetricsEvent := Some tt;
     isOpen := Some true;
     isUnlocked := Some true |}.

(** The sample controller without the network collaborator, as the
    constructor leaves it when none is given. *)
Definition no_network_controller : Controller :=
  with_network sample_controller None None.

(** The sample controller without the telemetry hook. *)
Definition no_hook_controller : Controller :=
  {| assetsContractController := Some tt;
     tokensController := Some tt;
     preferences := Some tt;
     _handle := None;
     _network := Some tt;
     web3 := Some tt;
     _keyringMemStore := Some tt;
     _tokenList := Some tt;
     selectedAddress := Some "0xacc0";
     useTokenDetection := Some true;
     tokenAddresses := Some [];
     hiddenTokens := Some [];
     detectedTokens := Some [];
     _trackMetaMetricsEvent := None;
     isOpen := Some true;
     isUnlocked := Some true |}.

(** A catalog that lists a token under the empty string, and the sample
    controller holding and hiding that address. *)
Definition empty_key_catalog : TokenList :=
  [ ("", entry_of "" "EMP");
    ("0xaaa1", entry_of "0xaaa1" "AAA") ].

Definition empty_key_controller : Controller :=
  with_known_tokens sample_controller [""] [""] [].

(** An environment on chain 0x5, where detection is not enabled. *)
Definition other_chain_env (catalog : TokenList) : Environment :=
  {| provider_chainId := "0x5";
     tokenList_state := catalog;
     getBalancesInSingleCall := fun _ _ _ => OracleReturns None;
     addDetectedTokens := fun _ _ => StoreResolves |}.

(** An environment whose oracle on its first call reports a balance for
    [key], whatever it is asked about, and fails on every later call. *)
Definition misdirected_env (catalog : TokenList) (key : string) : Environment :=
  {| provider_chainId := "0x1";
     tokenList_state := catalog;
     getBalancesInSingleCall :=
       fun past _ _ =>
         match oracle_calls past with
         | [] => OracleReturns (Some [(key, 5%N)])
         | _ :: _ => OracleThrows (Thrown "timeout")
         end;
     addDetectedTokens := fun _ _ => StoreResolves |}.

(** An environment whose oracle reports a balance under a name that is
    no token address. *)
Definition constructor_env (catalog : TokenList) : Environment :=
  {| provider_chainId := "0x1";
     tokenList_state := catalog;
     getBalancesInSingleCall :=
       fun _ _ _ => OracleReturns (Some [("constructor", 1%N)]);
     addDetectedTokens := fun _ _ => StoreResolves |}.

(** The state of a tokens controller that holds no token. *)
Definition no_tokens : TokensState :=
  {| state_tokens := Some [];
     state_ignoredTokens := Some [];
     state_detectedTokens := Some [] |}.

(** A timer table holding one timer of five seconds, and the sample
    controller holding its handle. *)
Definition five_seconds_timer : Timers :=
  {| next_handle := 1; running := [(0, 5000%Z)] |}.

Definition polling_controller : Controller :=
  with_handle sample_controller (Some 0).

(** A notification of the tokens controller that delivers the third
    token of the catalog as detected. *)
Definition third_detected : TokensState :=
  {| state_tokens := None;
     state_ignoredTokens := None;
     state_detectedTokens :=
       Some [ {| address := "0xccc3";
                 symbol := "CCC";
                 decimals := 18;
                 image := "";
                 aggregators := [] |} ] |}.

(** * Properties *)

(** ** Candidate selection *)

Lemma toLowerCase_empty (s : string) : toLowerCase s = "" -> s = "".
Proof. destruct s as [|c s]; [reflexivity | discriminate]. Qed.

Lemma isEqualCaseInsensitive_refl (a : string) :
  isEqualCaseInsensitive a a = true.
Proof. unfold isEqualCaseInsensitive. apply String.eqb_refl. Qed.

Lemma isEqualCaseInsensitive_empty (a : string) :
  isEqualCaseInsensitive "" a = true -> a = "".
Proof.
  unfold isEqualCaseInsensitive. cbn [toLowerCase]. intro H.
  apply String.eqb_eq in H. symmetry in H. now apply toLowerCase_empty.
Qed.

Lemma not_find_string_known (set : list string) (a : string) :
  a <> "" ->
  not_find_string (fun x => isEqualCaseInsensitive x a) set
  = negb (known_in set a).
Proof.
  intro Ha. unfold not_find_string, known_in.
  induction set as [|x set IH]; cbn [find existsb]; [reflexivity|].
  destruct (isEqualCaseInsensitive x a) eqn:E.
  - cbn [truthy_string orb].
    destruct (String.eqb_spec x "") as [->|Hx]; [|reflexivity].
    now apply isEqualCaseInsensitive_empty in E.
  - exact IH.
Qed.

Lemma not_find_object_known (detected : list Token) (a : string) :
  not_find_object (fun t => isEqualCaseInsensitive (address t) a) detected
  = negb (known_in (map address detected) a).
Proof.
  unfold not_find_object, known_in.
  induction detected as [|t detected IH]; cbn [find existsb map]; [reflexivity|].
  destruct (isEqualCaseInsensitive (address t) a); [reflexivity | exact IH].
Qed.

Section KnownMirrors.

Variable this : Controller.
Variables held hidden : list string.
Variable detected : list Token.
Hypothesis Hheld : tokenAddresses this = Some held.
Hypothesis Hhidden : hiddenTokens this = Some hidden.
Hypothesis Hdetected : detectedTokens this = Some detected.

Lemma isUnknownToken_is_candidate (a : string) :
  a <> "" ->
  isUnknownToken this a = inr (is_candidate held hidden detected a).
Proof.
  intro Ha. unfold isUnknownToken, is_candidate.
  rewrite Hheld, Hhidden, Hdetected.
  rewrite !not_find_string_known, not_find_object_known by exact Ha.
  destruct (known_in held a), (known_in hidden a); reflexivity.
Qed.

Lemma tokensToDetect_loop_filter (keys : list string) :
  ~ In "" keys ->
  tokensToDetect_loop this keys
  = inr (filter (is_candidate held hidden detected) keys).
Proof.
  induction keys as [|k keys IH]; intro Hne; cbn [tokensToDetect_loop filter].
  - reflexivity.
  - rewrite isUnknownToken_is_candidate
      by (intro E; apply Hne; left; now symmetry).
    rewrite IH by (intro E; apply Hne; now right).
    reflexivity.
Qed.

Lemma tokensToDetect_candidate_list (tokenList : TokenList) :
  ~ In "" (Object_keys tokenList) ->
  tokensToDetect this tokenList
  = inr (candidate_list tokenList held hidden detected).
Proof. intro H. unfold tokensToDetect. now apply tokensToDetect_loop_filter. Qed.

End KnownMirrors.

(** Why the catalog addresses are taken non-empty: [find] returns the
    matching element, and the empty string, the one falsy string, then
    reads as no match. *)
Remark empty_address_reads_as_unknown :
  not_find_string (fun address => isEqualCaseInsensitive address "") [""]
  = true.
Proof. reflexivity. Qed.

Lemma candidate_list_In
    (catalog : TokenList) (held hidden : list string) (detected : list Token)
    (a : string) :
  In a (candidate_list catalog held hidden detected)
  <-> In a (Object_keys catalog)
      /\ known_in held a = false
      /\ known_in hidden a = false
      /\ known_in (map address detected) a = false.
Proof.
  unfold candidate_list, is_candidate. rewrite filter_In.
  rewrite !andb_true_iff, !negb_true_iff. tauto.
Qed.

(** C2, as the code has it.  With the three mirrors set and no empty
    string among the catalog addresses, the candidate list
    [detectNewTokens] builds is the list of the catalog addresses that no
    held, hidden or detected address equals up to case, in catalog order;
    the computation is a function of the catalog and the mirrors and
    returns a new list.  So an address is in it exactly when it is a
    catalog address absent from all three sets, and for the catalog A, B,
    C with A held and B hidden, C differing from both up to case, the
    list is C alone. *)
Theorem candidate_list_excludes_known
    (this : Controller) (tokenList : TokenList)
    (held hidden : list string) (detected : list Token) :
  tokenAddresses this = Some held ->
  hiddenTokens this = Some hidden ->
  detectedTokens this = Some detected ->
  ~ In "" (Object_keys tokenList) ->
  tokensToDetect this tokenList
  = inr (filter (is_candidate held hidden detected) (Object_keys tokenList))
  /\ (forall candidates a,
        tokensToDetect this tokenList = inr candidates ->
        (In a candidates
         <-> In a (Object_keys tokenList)
             /\ known_in held a = false
             /\ known_in hidden a = false
             /\ known_in (map address detected) a = false))
  /\ (forall A B C dA dB dC,
        tokenList = [(A, dA); (B, dB); (C, dC)] ->
        held = [A] -> hidden = [B] -> detected = [] ->
        isEqualCaseInsensitive A C = false ->
        isEqualCaseInsensitive B C = false ->
        tokensToDetect this tokenList = inr [C]).
Proof.
  intros Hh Hi Hd Hne.
  pose proof (tokensToDetect_candidate_list this held hidden detected
                Hh Hi Hd tokenList Hne) as Heq.
  split; [exact Heq|]. split.
  - intros candidates a Hc. rewrite Heq in Hc. injection Hc as <-.
    apply candidate_list_In.
  - intros A B C dA dB dC -> -> -> -> HAC HBC.
    rewrite Heq. unfold candidate_list, is_candidate, known_in.
    cbn [Object_keys map fst filter existsb].
    rewrite !isEqualCaseInsensitive_refl, HAC, HBC.
    cbn [orb negb andb].
    destruct (isEqualCaseInsensitive A B); reflexivity.
Qed.

(** ** The activity gate and the detection switches *)

Section Gates.

Context {imports : Imports}.

Lemma isActive_closed (this : Controller) :
  truthy_bool (isUnlocked this) = false \/ truthy_bool (isOpen this) = false ->
  isActive this = false.
Proof.
  unfold isActive. intros [H|H]; rewrite H; [apply andb_false_r | reflexivity].
Qed.

(** C3.  While the session is locked or the view is inactive, a tick is a
    no-op: the timer's callback and a direct call of [detectNewTokens]
    return at once, so that a run has no event at all (no oracle call, no
    store write) and resolves, and [restartTokenDetection] starts no run
    and leaves the controller and the timers as they are. *)
Theorem closed_gate_tick_is_noop (this : Controller) :
  truthy_bool (isUnlocked this) = false \/ truthy_bool (isOpen this) = false ->
  (forall env past,
     run env past (onInterval this) = ([], Resolved)
     /\ run env past (detectNewTokens this) = ([], Resolved)
     /\ oracle_calls (fst (run env past (detectNewTokens this))) = []
     /\ store_writes (fst (run env past (detectNewTokens this))) = [])
  /\ (forall timers, restartTokenDetection this timers = (this, timers, [])).
Proof.
  intro Hgate. apply isActive_closed in Hgate.
  assert (Hd : detectNewTokens this = Resolve)
    by (unfold detectNewTokens; now rewrite Hgate).
  split.
  - intros env past. unfold onInterval. rewrite Hd. cbn. auto.
  - intro timers. unfold restartTokenDetection. now rewrite Hgate.
Qed.

(** C10, as the code has it.  Whatever the gate, unless the mirrored
    preference [useTokenDetection] is true and detection is enabled for
    the chain id the network store holds, a run of [detectNewTokens]
    reads no catalog, calls no oracle, emits no telemetry, writes no
    store and logs no warning.  It resolves when the gate is closed, when
    the preference is off and when the network collaborator is set; with
    the gate open, the preference on and no network collaborator, reading
    the chain id throws and the run is left by that [TypeError]. *)
Theorem detection_off_run_is_silent
    (this : Controller) (env : Environment) (past : list Event) :
  ~ (truthy_bool (useTokenDetection this) = true
     /\ isTokenDetectionEnabledForNetwork (provider_chainId env) = true) ->
  let evs := fst (run env past (detectNewTokens this)) in
  let out := snd (run env past (detectNewTokens this)) in
  catalog_reads evs = []
  /\ oracle_calls evs = []
  /\ telemetry evs = []
  /\ store_writes evs = []
  /\ warnings evs = []
  /\ ((truthy_bool (useTokenDetection this) = true -> _network this <> None) ->
      out = Resolved)
  /\ (isActive this = false -> out = Resolved)
  /\ (isActive this = true ->
      truthy_bool (useTokenDetection this) = true ->
      _network this = None ->
      out = Rejected (TypeError "this._network")).
Proof.
  intro Hoff. unfold detectNewTokens.
  destruct (isActive this); cbn [negb];
    [|cbn; repeat split; try reflexivity; discriminate].
  destruct (truthy_bool (useTokenDetection this)) eqn:Huse; cbn [negb];
    [|cbn; repeat split; try reflexivity; discriminate].
  destruct (_network this) as [n|] eqn:Hnet.
  - cbn [run].
    destruct (isTokenDetectionEnabledForNetwork (provider_chainId env)) eqn:Hen.
    + exfalso. apply Hoff. split; reflexivity.
    + cbn. repeat split; try reflexivity; discriminate.
  - cbn. repeat split; try reflexivity; try discriminate.
    intro H. exfalso. now apply H.
Qed.

End Gates.

(** ** The batch split *)

Lemma slice_prefix {A : Type} (l : list A) (n : Z) :
  (0 <= n)%Z -> slice l 0 n = firstn (Z.to_nat n) l.
Proof.
  intro Hn. unfold slice.
  assert (E0 : (0 <? 0)%Z = false) by reflexivity. rewrite E0.
  destruct (Z.ltb_spec n 0) as [Hlt|_]; [lia|].
  replace (Z.to_nat (Z.min 0 (Z.of_nat (length l)))) with 0%nat by lia.
  rewrite skipn_O.
  destruct (Z.le_ge_cases n (Z.of_nat (length l))) as [Hle|Hge].
  - f_equal. lia.
  - rewrite (firstn_all2 (n := Z.to_nat n)) by lia.
    apply firstn_all2. lia.
Qed.

(** The first slice holds the first 1000 addresses. *)
Lemma first_slice (l : list string) : slice l 0 1000 = firstn 1000 l.
Proof.
  rewrite slice_prefix by lia. f_equal.
Qed.

(** The second slice runs from index 1000 and stops one short of the
    end. *)
Lemma second_slice (l : list string) :
  slice l 1000 (Z.of_nat (length l) - 1)
  = firstn (length l - 1001) (skipn 1000 l).
Proof.
  unfold slice.
  assert (E : (1000 <? 0)%Z = false) by reflexivity. rewrite E.
  destruct (Z.ltb_spec (Z.of_nat (length l) - 1) 0) as [Hlt|Hge].
  - assert (Hl : length l = 0%nat) by lia.
    destruct l; [|discriminate]. reflexivity.
  - destruct (le_gt_dec (length l) 1000) as [Hle|Hgt].
    + rewrite (skipn_all2 (n := 1000)) by lia.
      rewrite skipn_all2 by lia. now rewrite !firstn_nil.
    + f_equal; [|f_equal]; lia.
Qed.

Lemma sliceOfTokensToDetect_eq (l : list string) :
  sliceOfTokensToDetect l
  = [firstn 1000 l; firstn (length l - 1001) (skipn 1000 l)].
Proof.
  unfold sliceOfTokensToDetect. now rewrite first_slice, second_slice.
Qed.

(** ** Traces of the batch loop *)

Lemma oracle_calls_app (e1 e2 : list Event) :
  oracle_calls (e1 ++ e2) = oracle_calls e1 ++ oracle_calls e2.
Proof.
  induction e1 as [|ev e1 IH]; [reflexivity|].
  destruct ev; cbn [app oracle_calls]; now rewrite IH.
Qed.

Lemma store_writes_app (e1 e2 : list Event) :
  store_writes (e1 ++ e2) = store_writes e1 ++ store_writes e2.
Proof.
  induction e1 as [|ev e1 IH]; [reflexivity|].
  destruct ev; cbn [app store_writes]; now rewrite IH.
Qed.

Lemma warnings_app (e1 e2 : list Event) :
  warnings (e1 ++ e2) = warnings e1 ++ warnings e2.
Proof.
  induction e1 as [|ev e1 IH]; [reflexivity|].
  destruct ev; cbn [app warnings]; now rewrite IH.
Qed.

Section BatchLoop.

Context {imports : Imports}.
Variable env : Environment.
Variable this : Controller.
Variable tokenList : TokenList.

(** The event of an oracle call that returned. *)
Local Abbreviation answered s result :=
  (BalancesFetched (selectedAddress this) s (OracleReturns result)).

Lemma run_GetBalancesInSingleCall past account tokensSlice k :
  run env past (GetBalancesInSingleCall account tokensSlice k)
  = after (BalancesFetched account tokensSlice
             (getBalancesInSingleCall env past account tokensSlice))
      (run env
         (past ++ [BalancesFetched account tokensSlice
                     (getBalancesInSingleCall env past account tokensSlice)])
         (k (getBalancesInSingleCall env past account tokensSlice))).
Proof. cbn [run]. unfold after. now destruct (run env _ _). Qed.

Lemma run_reconcile past result next :
  run env past (reconcile this tokenList result next)
  = and_then env past (reconciled env this tokenList past result) next.
Proof.
  unfold reconciled, reconcile, and_then.
  destruct result as [balances|].
  2:{ cbn [run fst snd app]. rewrite app_nil_r. now destruct (run env past next). }
  destruct (collectTokensWithBalance tokenList (Object_keys balances))
    as [e|[details found]]; [reflexivity|].
  destruct (0 <? length found)%nat.
  2:{ cbn [run fst snd app]. rewrite app_nil_r. now destruct (run env past next). }
  destruct (_trackMetaMetricsEvent this); [|reflexivity].
  destruct (tokensController this); [|reflexivity].
  cbn [run].
  destruct (addDetectedTokens env
              (past ++ [Tracked (tokenDetectedEvent details)]) found).
  - cbn [run fst snd app]. rewrite <- !app_assoc. cbn [app].
    now destruct (run env _ next).
  - reflexivity.
Qed.

(** Reconciling calls no oracle, reads no catalog and logs no warning. *)
Lemma reconciled_quiet past result :
  oracle_calls (fst (reconciled env this tokenList past result)) = []
  /\ warnings (fst (reconciled env this tokenList past result)) = []
  /\ catalog_reads (fst (reconciled env this tokenList past result)) = [].
Proof.
  unfold reconciled, reconcile.
  destruct result as [balances|]; [|cbn; auto].
  destruct (collectTokensWithBalance tokenList (Object_keys balances))
    as [e|[details found]]; [cbn; auto|].
  destruct (0 <? length found)%nat; [|cbn; auto].
  destruct (_trackMetaMetricsEvent this); [|cbn; auto].
  destruct (tokensController this); [|cbn; auto].
  cbn [run].
  destruct (addDetectedTokens env _ found); cbn; auto.
Qed.

(** One turn of the loop when the oracle collaborator is set. *)
Lemma run_forEachSlice_cons past tokensSlice rest :
  assetsContractController this <> None ->
  run env past (forEachSlice this tokenList (tokensSlice :: rest))
  = let response :=
      getBalancesInSingleCall env past (selectedAddress this) tokensSlice in
    let fetched := BalancesFetched (selectedAddress this) tokensSlice response in
    match response with
    | OracleThrows error =>
      ([fetched; Warned fetch_failed_message error], Resolved)
    | OracleReturns result =>
      after fetched
        (and_then env (past ++ [fetched])
           (reconciled env this tokenList (past ++ [fetched]) result)
           (forEachSlice this tokenList rest))
    end.
Proof.
  intro Hset. cbn [forEachSlice].
  destruct (assetsContractController this); [|contradiction].
  rewrite run_GetBalancesInSingleCall.
  destruct (getBalancesInSingleCall env past (selectedAddress this) tokensSlice).
  - reflexivity.
  - cbv zeta. now rewrite run_reconcile.
Qed.

(** A loop that resolved without a warning went through all its slices,
    and a longer loop continues from there. *)
Lemma run_forEachSlice_app done rest :
  forall past evs,
    run env past (forEachSlice this tokenList done) = (evs, Resolved) ->
    warnings evs = [] ->
    run env past (forEachSlice this tokenList (done ++ rest))
    = (evs ++ fst (run env (past ++ evs) (forEachSlice this tokenList rest)),
       snd (run env (past ++ evs) (forEachSlice this tokenList rest))).
Proof.
  induction done as [|s done IH]; intros past evs Hrun Hquiet.
  - cbn in Hrun. injection Hrun as <-.
    cbn [app]. rewrite app_nil_r. now destruct (run env past _).
  - destruct (assetsContractController this) eqn:Hset.
    2:{ cbn [forEachSlice] in Hrun. rewrite Hset in Hrun.
        cbn in Hrun. injection Hrun as <-. discriminate. }
    assert (Hset' : assetsContractController this <> None) by congruence.
    cbn [app]. rewrite run_forEachSlice_cons in Hrun |- * by exact Hset'.
    cbv zeta in Hrun |- *.
    destruct (getBalancesInSingleCall env past (selectedAddress this) s)
      as [error|result].
    + injection Hrun as <-. discriminate.
    + unfold after, and_then in Hrun |- *.
      destruct (reconciled env this tokenList _ result) as [e1 [|err]] eqn:Hrec;
        cbn [fst snd] in Hrun |- *; [|discriminate].
      injection Hrun as <- Hout.
      cbn [warnings] in Hquiet. rewrite warnings_app in Hquiet.
      apply app_eq_nil in Hquiet. destruct Hquiet as [_ Hq2].
      rewrite (IH _ (fst (run env ((past ++ [answered s result]) ++ e1)
                        (forEachSlice this tokenList done)))).
      * cbn [fst snd]. rewrite <- !app_assoc. cbn [app].
        rewrite <- !app_assoc. reflexivity.
      * rewrite <- Hout.
        now destruct (run env _ (forEachSlice this tokenList done)).
      * exact Hq2.
Qed.

(** The oracle is called for the slices in order, one call per slice
    reached: the calls are an initial segment of the slices. *)
Lemma oracle_calls_initial_segment slices :
  forall past,
    exists n,
      oracle_calls (fst (run env past (forEachSlice this tokenList slices)))
      = firstn n slices.
Proof.
  induction slices as [|s slices IH]; intro past.
  - exists 0%nat. reflexivity.
  - destruct (assetsContractController this) eqn:Hset.
    2:{ exists 0%nat. cbn [forEachSlice]. rewrite Hset. reflexivity. }
    rewrite run_forEachSlice_cons by congruence. cbv zeta.
    destruct (getBalancesInSingleCall env past (selectedAddress this) s)
      as [error|result].
    + exists 1%nat. reflexivity.
    + unfold after, and_then. cbn [fst].
      destruct (reconciled_quiet
                  (past ++ [answered s result])
                  result) as (Ho & _ & _).
      destruct (reconciled env this tokenList _ result) as [e1 [|err]];
        cbn [fst snd] in *.
      * destruct (IH ((past ++ [answered s result]) ++ e1))
          as [n Hn].
        exists (S n). cbn [oracle_calls firstn].
        now rewrite oracle_calls_app, Ho, Hn.
      * exists 1%nat. cbn [oracle_calls firstn]. now rewrite Ho.
Qed.

(** With the oracle collaborator set, the first slice is always sent. *)
Lemma oracle_calls_first past s slices :
  assetsContractController this <> None ->
  exists more,
    oracle_calls (fst (run env past (forEachSlice this tokenList (s :: slices))))
    = s :: more.
Proof.
  intro Hset. rewrite run_forEachSlice_cons by exact Hset. cbv zeta.
  destruct (getBalancesInSingleCall env past (selectedAddress this) s).
  - eexists. reflexivity.
  - unfold after. cbn [fst oracle_calls]. eexists. reflexivity.
Qed.

(** A loop that resolved without a warning called the oracle for every
    slice. *)
Lemma oracle_calls_complete slices :
  forall past,
    snd (run env past (forEachSlice this tokenList slices)) = Resolved ->
    warnings (fst (run env past (forEachSlice this tokenList slices))) = [] ->
    oracle_calls (fst (run env past (forEachSlice this tokenList slices)))
    = slices.
Proof.
  induction slices as [|s slices IH]; intros past Hout Hquiet.
  - reflexivity.
  - destruct (assetsContractController this) eqn:Hset.
    2:{ cbn [forEachSlice] in Hquiet. rewrite Hset in Hquiet. discriminate. }
    rewrite run_forEachSlice_cons in Hout, Hquiet |- * by congruence.
    cbv zeta in Hout, Hquiet |- *.
    destruct (getBalancesInSingleCall env past (selectedAddress this) s)
      as [error|result]; [discriminate|].
    unfold after, and_then in Hout, Hquiet |- *.
    destruct (reconciled_quiet
                (past ++ [answered s result])
                result) as (Ho & _ & _).
    destruct (reconciled env this tokenList _ result) as [e1 [|err]];
      cbn [fst snd] in *;
      [|discriminate].
    cbn [warnings] in Hquiet. rewrite warnings_app in Hquiet.
    apply app_eq_nil in Hquiet. destruct Hquiet as [_ Hq2].
    cbn [oracle_calls]. rewrite oracle_calls_app, Ho. cbn [app].
    f_equal. now apply IH.
Qed.

(** Reconciling emits telemetry and store events only. *)
Lemma reconciled_no_fetch past result account tokensSlice response :
  ~ In (BalancesFetched account tokensSlice response)
       (fst (reconciled env this tokenList past result)).
Proof.
  unfold reconciled, reconcile.
  destruct result as [balances|]; [|cbn; tauto].
  destruct (collectTokensWithBalance tokenList (Object_keys balances))
    as [e|[details found]]; [cbn; tauto|].
  destruct (0 <? length found)%nat; [|cbn; tauto].
  destruct (_trackMetaMetricsEvent this); [|cbn; tauto].
  destruct (tokensController this); [|cbn; intros [H|[]]; discriminate].
  cbn [run].
  destruct (addDetectedTokens env _ found); cbn;
    intros [H|[H|[]]]; discriminate.
Qed.

(** The loop after the batches [done] went through and the oracle call
    for the next batch failed: the failed call, one warning, the end. *)
Lemma run_forEachSlice_failure past done failing later evs error :
  assetsContractController this <> None ->
  run env past (forEachSlice this tokenList done) = (evs, Resolved) ->
  warnings evs = [] ->
  getBalancesInSingleCall env (past ++ evs) (selectedAddress this) failing
  = OracleThrows error ->
  run env past (forEachSlice this tokenList (done ++ failing :: later))
  = (evs ++ [BalancesFetched (selectedAddress this) failing (OracleThrows error);
             Warned fetch_failed_message error],
     Resolved).
Proof.
  intros Hset Hdone Hquiet Hfail.
  rewrite (run_forEachSlice_app done (failing :: later) past evs Hdone Hquiet).
  rewrite run_forEachSlice_cons by exact Hset.
  cbv zeta. rewrite Hfail. reflexivity.
Qed.

(** A failed oracle call in the trace of the loop is the call for some
    slice, made after the slices before it went through. *)
Lemma failed_call_position slices :
  forall past pre post account failing error,
    fst (run env past (forEachSlice this tokenList slices))
    = pre ++ BalancesFetched account failing (OracleThrows error) :: post ->
    exists done later,
      slices = done ++ failing :: later
      /\ assetsContractController this <> None
      /\ account = selectedAddress this
      /\ run env past (forEachSlice this tokenList done) = (pre, Resolved)
      /\ warnings pre = []
      /\ getBalancesInSingleCall env (past ++ pre) account failing
         = OracleThrows error.
Proof.
  induction slices as [|s slices IH];
    intros past pre post account failing error Htrace.
  - cbn in Htrace. now destruct pre.
  - destruct (assetsContractController this) eqn:Hset.
    2:{ cbn [forEachSlice] in Htrace. rewrite Hset in Htrace. cbn in Htrace.
        destruct pre as [|x [|y pre]]; discriminate. }
    assert (Hset' : assetsContractController this <> None) by congruence.
    rewrite run_forEachSlice_cons in Htrace by exact Hset'.
    cbv zeta in Htrace.
    destruct (getBalancesInSingleCall env past (selectedAddress this) s)
      as [error'|result] eqn:Hresp.
    + cbn [fst] in Htrace.
      destruct pre as [|x [|y [|z pre]]]; try discriminate.
      injection Htrace as <- <- <- <-.
      exists [], slices. cbn [app]. rewrite app_nil_r.
      repeat split; auto; try congruence.
    + unfold after, and_then in Htrace. cbn [fst] in Htrace.
      destruct pre as [|x pre]; [discriminate|].
      cbn [app] in Htrace. injection Htrace as <- Htrace.
      pose proof (reconciled_no_fetch (past ++ [answered s result]) result
                    account failing (OracleThrows error)) as Hno.
      destruct (reconciled env this tokenList
                  (past ++ [answered s result]) result)
        as [e1 [|err]] eqn:Hrec;
        cbn [fst snd] in Htrace, Hno.
      2:{ exfalso. apply Hno. rewrite Htrace. apply in_or_app. right. now left. }
      apply app_eq_app in Htrace. destruct Htrace as [l [[H1 H2]|[H1 H2]]].
      { destruct l as [|y l].
        - rewrite app_nil_r in H1. subst e1. cbn [app] in H2.
          destruct (IH ((past ++ [answered s result]) ++ pre) [] post
                      account failing error)
            as (done & later & Hs & _ & Ha & Hd & Hq & Hf);
            [now rewrite <- H2|].
          exists (s :: done), later. subst slices.
          repeat split; auto; try congruence.
          + rewrite run_forEachSlice_cons by exact Hset'. cbv zeta.
            rewrite Hresp. unfold after, and_then. rewrite Hrec.
            cbn [fst snd]. rewrite Hd. cbn [fst snd]. now rewrite app_nil_r.
          + cbn [warnings]. rewrite <- (app_nil_r pre).
            rewrite warnings_app.
            destruct (reconciled_quiet (past ++ [answered s result]) result)
              as (_ & Hw & _).
            rewrite Hrec in Hw. cbn [fst] in Hw. now rewrite Hw.
          + rewrite app_nil_r in Hf. rewrite <- app_assoc in Hf. exact Hf.
        - exfalso. apply Hno. injection H2 as <- _. rewrite H1.
          apply in_or_app. right. now left. }
      subst pre.
      destruct (IH ((past ++ [answered s result]) ++ e1) l post
                  account failing error)
        as (done & later & Hs & _ & Ha & Hd & Hq & Hf); [exact H2|].
      exists (s :: done), later. subst slices.
      repeat split; auto; try congruence.
      * rewrite run_forEachSlice_cons by exact Hset'. cbv zeta.
        rewrite Hresp. unfold after, and_then. rewrite Hrec.
        cbn [fst snd]. rewrite Hd. reflexivity.
      * cbn [warnings]. rewrite warnings_app.
        destruct (reconciled_quiet (past ++ [answered s result]) result)
          as (_ & Hw & _).
        rewrite Hrec in Hw. cbn [fst] in Hw. now rewrite Hw, Hq.
      * rewrite <- !app_assoc in Hf. exact Hf.
Qed.

End BatchLoop.

(** ** Reconciliation of a batch result *)

Lemma get_cases {V : Type} (o : list (string * V)) (key : string) :
  (exists v, getOwnProperty o key = Some v /\ get o key = Some (Own v))
  \/ (getOwnProperty o key = None /\ In key Object_prototype
      /\ get o key = Some (Inherited key))
  \/ (getOwnProperty o key = None /\ ~ In key Object_prototype
      /\ get o key = None).
Proof.
  unfold get. destruct (getOwnProperty o key) as [v|]; [left; eauto|].
  right.
  destruct (existsb (String.eqb key) Object_prototype) eqn:E.
  - left. repeat split; auto.
    apply existsb_exists in E. destruct E as (x & Hx & E).
    apply String.eqb_eq in E. now subst.
  - right. repeat split; auto. intro Hin.
    assert (E' : existsb (String.eqb key) Object_prototype = true).
    { apply existsb_exists. exists key. split; [exact Hin | apply String.eqb_refl]. }
    congruence.
Qed.

Lemma getOwnProperty_In {V : Type} (o : list (string * V)) (key : string) (v : V) :
  getOwnProperty o key = Some v -> In (key, v) o.
Proof.
  induction o as [|[k w] o IH]; cbn [getOwnProperty]; [discriminate|].
  destruct (String.eqb_spec k key) as [->|_].
  - intro H. injection H as ->. now left.
  - intro H. right. now apply IH.
Qed.

Lemma getOwnProperty_key {V : Type} (o : list (string * V)) (key : string) :
  In key (Object_keys o) -> exists v, getOwnProperty o key = Some v.
Proof.
  induction o as [|[k w] o IH]; cbn [Object_keys map fst In getOwnProperty];
    [contradiction|].
  intros [->|H].
  - rewrite String.eqb_refl. eauto.
  - destruct (String.eqb k key); [eauto | now apply IH].
Qed.

Lemma collectTokensWithBalance_spec (tokenList : TokenList) (keys : list string) :
  forall details found,
    collectTokensWithBalance tokenList keys = inr (details, found) ->
    Forall2 (found_under tokenList) keys found
    /\ details = map detail found.
Proof.
  induction keys as [|key keys IH]; intros details found H; cbn in H.
  - injection H as <- <-. split; [constructor | reflexivity].
  - destruct (get_cases tokenList key)
      as [(entry & Hown & Hget)|[(Hown & Hin & Hget)|(_ & _ & Hget)]];
      rewrite Hget in H; [| |discriminate];
      destruct (collectTokensWithBalance tokenList keys) as [e|[ds fs]];
      try discriminate;
      injection H as <- <-;
      destruct (IH ds fs eq_refl) as [IH1 IH2]; split;
      try (cbn [map detail tokenWithBalance eventTokensDetail]; now rewrite IH2);
      (constructor; [|exact IH1]).
    + left. exists entry. now split.
    + right. now repeat split.
Qed.

(** The loop over the result keys throws exactly when a key is not found
    in the catalog object. *)
Lemma collectTokensWithBalance_throws (tokenList : TokenList) (keys : list string) :
  forall e,
    collectTokensWithBalance tokenList keys = inl e ->
    e = TypeError "tokenList[nonZeroTokenAddress]"
    /\ exists key, In key keys /\ get tokenList key = None.
Proof.
  induction keys as [|key keys IH]; intros e H; cbn in H; [discriminate|].
  destruct (get tokenList key) as [found|] eqn:Hget.
  - destruct (collectTokensWithBalance tokenList keys) as [e'|[ds fs]];
      [|discriminate].
    injection H as <-. destruct (IH e' eq_refl) as (-> & k & Hk & Hg).
    split; [reflexivity|]. exists k. split; [now right | exact Hg].
  - injection H as <-. split; [reflexivity|]. exists key. split; [now left | exact Hget].
Qed.

Lemma collectTokensWithBalance_found (tokenList : TokenList) (keys : list string) :
  (forall key, In key keys -> get tokenList key <> None) ->
  exists details found,
    collectTokensWithBalance tokenList keys = inr (details, found).
Proof.
  intro Hall.
  destruct (collectTokensWithBalance tokenList keys) as [e|[ds fs]] eqn:E;
    [|eauto].
  destruct (collectTokensWithBalance_throws _ _ _ E) as (_ & k & Hk & Hg).
  now destruct (Hall k Hk).
Qed.

Section Reconciler.

Context {imports : Imports}.

(** C5, as the code has it.  With the telemetry hook and the tokens
    controller set, take any batch result.  Its discovery list is derived
    when every key of the result is found in the catalog object; it then
    holds, in the order of the keys, the token of the catalog entry under
    each key, and for a key that is no catalog key but a name inherited
    from [Object.prototype] the object without fields.  When the list is
    non-empty the reconciliation of the batch is exactly one telemetry
    event, which carries the "symbol - address" line of every discovery
    with the ERC20 standard and the TOKEN asset type, followed by exactly
    one [addDetectedTokens] call with the whole list; when it is empty
    there is no event at all.  When a key of the result is not found the
    method is left by a [TypeError] before any event.  Nothing else
    happens in any case. *)
Theorem reconcile_one_event_one_write
    (env : Environment) (this : Controller) (tokenList : TokenList)
    (past : list Event) (result : option Balances) :
  _trackMetaMetricsEvent this <> None ->
  tokensController this <> None ->
  let keys :=
    match result with
    | Some balances => Object_keys balances
    | None => []
    end in
  (forall details found,
     discoveries tokenList result = inr (details, found) ->
     let ev :=
       {| event := EVENT_NAMES_TOKEN_DETECTED;
          category := EVENT_CATEGORIES_WALLET;
          properties :=
            {| tokens := map detail found;
               token_standard := TOKEN_STANDARDS_ERC20;
               asset_type := ASSET_TYPES_TOKEN |} |} in
     let stored := addDetectedTokens env (past ++ [Tracked ev]) found in
     Forall2 (found_under tokenList) keys found
     /\ (found <> [] ->
         run env past (reconcile this tokenList result Resolve)
         = ([Tracked ev; DetectedTokensAdded found stored],
            match stored with
            | StoreResolves => Resolved
            | StoreRejects e => Rejected e
            end))
     /\ (found = [] ->
         run env past (reconcile this tokenList result Resolve)
         = ([], Resolved)))
  /\ ((forall key, In key keys -> get tokenList key <> None) ->
      exists details found,
        discoveries tokenList result = inr (details, found))
  /\ (forall e,
        discoveries tokenList result = inl e ->
        e = TypeError "tokenList[nonZeroTokenAddress]"
        /\ (exists key, In key keys /\ get tokenList key = None)
        /\ run env past (reconcile this tokenList result Resolve)
           = ([], Rejected e)).
Proof.
  intros Htrack Hstore keys. subst keys. split; [|split].
  2:{ intro Hall. destruct result as [balances|]; cbn [discoveries].
      - now apply collectTokensWithBalance_found.
      - eauto. }
  2:{ intros e He. unfold reconcile.
      destruct result as [balances|]; cbn [discoveries] in He; [|discriminate].
      destruct (collectTokensWithBalance_throws _ _ _ He) as [-> Hkey].
      repeat split; [exact Hkey | now rewrite He]. }
  intros details found Hd ev stored. subst ev stored.
  assert (Hspec :
    Forall2 (found_under tokenList)
      (match result with Some balances => Object_keys balances | None => [] end)
      found
    /\ details = map detail found).
  { destruct result as [balances|]; cbn in Hd.
    - now apply collectTokensWithBalance_spec.
    - injection Hd as <- <-. split; [constructor | reflexivity]. }
  destruct Hspec as [Hall Hdetails]. split; [exact Hall|].
  unfold reconcile. destruct result as [balances|]; cbn [discoveries] in Hd.
  - rewrite Hd.
    destruct (_trackMetaMetricsEvent this); [|contradiction].
    destruct (tokensController this); [|contradiction].
    destruct found as [|t found].
    + split; [intro H; now contradiction H | reflexivity].
    + split; [intros _ | discriminate].
      cbn [length Nat.ltb Nat.leb run].
      unfold tokenDetectedEvent. rewrite Hdetails.
      destruct (addDetectedTokens env _ (t :: found)); reflexivity.
  - injection Hd as <- <-. split; [intro H; now contradiction H | reflexivity].
Qed.

End Reconciler.

(** ** The batches sent to the oracle *)

Lemma telemetry_app (e1 e2 : list Event) :
  telemetry (e1 ++ e2) = telemetry e1 ++ telemetry e2.
Proof.
  induction e1 as [|ev e1 IH]; [reflexivity|].
  destruct ev; cbn [app telemetry]; now rewrite IH.
Qed.

Lemma known_in_app (s1 s2 : list string) (a : string) :
  known_in (s1 ++ s2) a = known_in s1 a || known_in s2 a.
Proof. unfold known_in. apply existsb_app. Qed.

Lemma In_firstn {A : Type} (n : nat) (l : list A) (a : A) :
  In a (firstn n l) -> In a l.
Proof.
  intro H. rewrite <- (firstn_skipn n l). apply in_or_app. now left.
Qed.

Lemma In_skipn {A : Type} (n : nat) (l : list A) (a : A) :
  In a (skipn n l) -> In a l.
Proof.
  intro H. rewrite <- (firstn_skipn n l). apply in_or_app. now right.
Qed.

(** Both slices are taken from the candidate list. *)
Lemma slices_incl (l b : list string) :
  In b (sliceOfTokensToDetect l) -> incl b l.
Proof.
  rewrite sliceOfTokensToDetect_eq. intros [<-|[<-|[]]] a Ha.
  - now apply In_firstn in Ha.
  - apply In_firstn in Ha. now apply In_skipn in Ha.
Qed.

(** Together the slices are the first [length l - 1] addresses when the
    list is longer than 1000, and the whole list otherwise. *)
Lemma slices_concat_long (l : list string) :
  length l > 1000 -> concat (sliceOfTokensToDetect l) = removelast l.
Proof.
  intro Hlen. rewrite sliceOfTokensToDetect_eq. cbn [concat].
  rewrite app_nil_r, removelast_firstn_len.
  pose proof (firstn_app_2 (length l - 1001) (firstn 1000 l) (skipn 1000 l))
    as E.
  rewrite firstn_skipn in E. rewrite <- E.
  f_equal. rewrite length_firstn. lia.
Qed.

Lemma slices_concat_short (l : list string) :
  length l <= 1000 -> concat (sliceOfTokensToDetect l) = l.
Proof.
  intro Hlen. rewrite sliceOfTokensToDetect_eq. cbn [concat].
  rewrite (skipn_all2 (n := 1000)) by lia.
  rewrite firstn_nil, firstn_all2 by lia. now rewrite !app_nil_r.
Qed.

Lemma last_not_in_removelast (l : list string) (d : string) :
  l <> [] -> NoDup l -> ~ In (last l d) (removelast l).
Proof.
  intros Hne Hnd.
  rewrite (app_removelast_last d Hne) in Hnd.
  apply NoDup_remove_2 in Hnd. now rewrite app_nil_r in Hnd.
Qed.

Lemma NoDup_firstn {A : Type} (n : nat) (l : list A) :
  NoDup l -> NoDup (firstn n l).
Proof.
  intro H. rewrite <- (firstn_skipn n l) in H.
  now apply NoDup_app_remove_r in H.
Qed.

Lemma NoDup_slices (l : list string) :
  NoDup l -> NoDup (concat (sliceOfTokensToDetect l)).
Proof.
  intro H. destruct (le_gt_dec (length l) 1000) as [Hle|Hgt].
  - now rewrite slices_concat_short.
  - rewrite slices_concat_long by exact Hgt.
    rewrite removelast_firstn_len. now apply NoDup_firstn.
Qed.

Section Batches.

Context {imports : Imports}.
Variable env : Environment.
Variable this : Controller.
Variable tokenList : TokenList.



End Batches.

(** ** A failed oracle call *)

Lemma NoDup_app_disjoint {A : Type} (l1 l2 : list A) (x : A) :
  NoDup (l1 ++ l2) -> In x l1 -> In x l2 -> False.
Proof.
  induction l1 as [|a l1 IH]; cbn [app In]; intros Hnd H1 H2; [exact H1|].
  inversion Hnd as [|? ? Hn Hnd']; subst.
  destruct H1 as [->|H1].
  - apply Hn. apply in_or_app. now right.
  - now apply IH.
Qed.

Lemma NoDup_map_injective {A B : Type} (f : A -> B) (l : list A) (x y : A) :
  NoDup (map f l) -> In x l -> In y l -> f x = f y -> x = y.
Proof.
  induction l as [|a l IH]; cbn [map In]; [contradiction|].
  intros Hnd Hx Hy E. inversion Hnd as [|? ? Hn Hnd']; subst.
  destruct Hx as [->|Hx], Hy as [->|Hy]; auto.
  - exfalso. apply Hn. rewrite E. now apply in_map.
  - exfalso. apply Hn. rewrite <- E. now apply in_map.
Qed.

(** The candidates are catalog keys, and distinct when the keys are. *)
Lemma tokensToDetect_loop_incl (this : Controller) (keys : list string) :
  forall candidates,
    tokensToDetect_loop this keys = inr candidates ->
    incl candidates keys /\ (NoDup keys -> NoDup candidates).
Proof.
  induction keys as [|k keys IH]; intros candidates H;
    cbn [tokensToDetect_loop] in H.
  - injection H as <-. split; [intros a [] | auto].
  - destruct (isUnknownToken this k) as [e|push]; [discriminate|].
    destruct (tokensToDetect_loop this keys) as [e|rest]; [discriminate|].
    injection H as <-. destruct (IH rest eq_refl) as [Hincl Hnd].
    split.
    + destruct push; intros a Ha.
      * destruct Ha as [->|Ha]; [now left | right; now apply Hincl].
      * right. now apply Hincl.
    + intro Hk. inversion Hk as [|? ? Hn Hk']; subst.
      destruct push; [|now apply Hnd].
      constructor; [|now apply Hnd].
      intro Hin. apply Hn. now apply Hincl.
Qed.

(** Adding detected tokens to the mirror removes from the candidates
    only the addresses of the added tokens. *)
Lemma candidate_survives
    (this : Controller) (held hidden : list string) (detected extra : list Token)
    (keys : list string) :
  tokenAddresses this = Some held ->
  hiddenTokens this = Some hidden ->
  detectedTokens this = Some detected ->
  forall candidates,
    tokensToDetect_loop this keys = inr candidates ->
    exists next,
      tokensToDetect_loop
        (with_known_tokens this held hidden (detected ++ extra)) keys
      = inr next
      /\ forall a,
           In a candidates ->
           known_in (map address extra) a = false ->
           In a next.
Proof.
  intros Hh Hi Hd.
  induction keys as [|k keys IH]; intros candidates H;
    cbn [tokensToDetect_loop] in H |- *.
  - injection H as <-. exists []. split; [reflexivity | intros a []].
  - unfold isUnknownToken in H |- *. rewrite Hh, Hi, Hd in H.
    cbn [tokenAddresses hiddenTokens detectedTokens with_known_tokens].
    rewrite !not_find_object_known in *. rewrite map_app, known_in_app.
    destruct (tokensToDetect_loop this keys) as [e|rest].
    { destruct (not_find_string _ held); [|discriminate].
      destruct (not_find_string _ hidden); discriminate. }
    destruct (IH rest eq_refl) as (next & -> & Hnext).
    destruct (not_find_string _ held);
      [destruct (not_find_string _ hidden)|];
      injection H as <-;
      try (eexists; split; [reflexivity|]; intros a Ha Hnew; now apply Hnext).
    destruct (known_in (map address detected) k) eqn:Hk; cbn [negb orb].
    + eexists. split; [reflexivity|]. intros a Ha Hnew. now apply Hnext.
    + eexists. split; [reflexivity|]. intros a [->|Ha] Hnew.
      * rewrite Hnew. now left.
      * destruct (known_in (map address extra) k); cbn [negb];
          [|right]; now apply Hnext.
Qed.

(** The state of the store after the writes of a tick. *)
Lemma addDetected_all (written : list (list Token)) :
  forall state,
    state_tokens (fold_left addDetected written state) = state_tokens state
    /\ state_ignoredTokens (fold_left addDetected written state)
       = state_ignoredTokens state
    /\ or_empty (state_detectedTokens (fold_left addDetected written state))
       = or_empty (state_detectedTokens state) ++ concat written.
Proof.
  induction written as [|w written IH]; intro state; cbn [fold_left concat].
  - now rewrite app_nil_r.
  - destruct (IH (addDetected state w)) as (-> & -> & ->).
    cbn [addDetected state_tokens state_ignoredTokens state_detectedTokens
         or_empty].
    now rewrite app_assoc.
Qed.

Section Failure.

Context {imports : Imports}.
Variable env : Environment.
Variable this : Controller.
Variable tokenList : TokenList.

Hypothesis Hlisted :
  forall key entry,
    In (key, entry) tokenList ->
    isEqualCaseInsensitive (entry_address entry) key = true.

(** Over keys of the catalog the loop of lines 136-150 does not throw,
    and builds for each key a token with, up to case, that address. *)
Lemma collectTokensWithBalance_own (keys : list string) :
  incl keys (Object_keys tokenList) ->
  exists details found,
    collectTokensWithBalance tokenList keys = inr (details, map TokenOf found)
    /\ forall t,
         In t found ->
         exists key, In key keys /\ isEqualCaseInsensitive (address t) key = true.
Proof.
  induction keys as [|key keys IH]; intro Hincl; cbn [collectTokensWithBalance].
  - exists [], []. split; [reflexivity | intros t []].
  - destruct (getOwnProperty_key tokenList key) as [entry Hown];
      [apply Hincl; now left|].
    unfold get. rewrite Hown.
    destruct IH as (details & found & -> & Hfound);
      [intros a Ha; apply Hincl; now right|].
    exists (eventTokensDetail (Own entry) :: details),
           (discovery entry :: found).
    split; [reflexivity|].
    intros t [<-|Ht].
    + exists key. split; [now left|].
      apply Hlisted. now apply getOwnProperty_In.
    + destruct (Hfound t Ht) as (k & Hk & E). exists k. split; [now right | exact E].
Qed.

(** What reconciling the answer to a batch writes, when the answer names
    tokens of the batch only. *)
Lemma reconciled_writes_own past result (batch : list string) :
  incl batch (Object_keys tokenList) ->
  (forall balances, result = Some balances -> incl (Object_keys balances) batch) ->
  exists written,
    store_writes (fst (reconciled env this tokenList past result))
    = map (map TokenOf) written
    /\ forall t,
         In t (concat written) ->
         exists key, In key batch /\ isEqualCaseInsensitive (address t) key = true.
Proof.
  intros Hbatch Hkeys. unfold reconciled, reconcile.
  destruct result as [balances|];
    [|exists []; split; [reflexivity | intros t []]].
  destruct (collectTokensWithBalance_own (Object_keys balances))
    as (details & found & -> & Hfound).
  { intros a Ha. apply Hbatch. now apply (Hkeys balances). }
  assert (Hin : forall t, In t (concat [found]) ->
                  exists key, In key batch
                              /\ isEqualCaseInsensitive (address t) key = true).
  { intros t Ht. cbn [concat] in Ht. rewrite app_nil_r in Ht.
    destruct (Hfound t Ht) as (k & Hk & E).
    exists k. split; [now apply (Hkeys balances) | exact E]. }
  destruct (0 <? length (map TokenOf found))%nat;
    [|exists []; split; [reflexivity | intros t []]].
  destruct (_trackMetaMetricsEvent this);
    [|exists []; split; [reflexivity | intros t []]].
  destruct (tokensController this);
    [|exists []; split; [reflexivity | intros t []]].
  cbn [run].
  destruct (addDetectedTokens env _ (map TokenOf found));
    exists [found]; split; try reflexivity; exact Hin.
Qed.

(** With an oracle that answers within the batch, every token a loop
    writes has, up to case, an address of one of its slices. *)
Lemma writes_of_asked (slices : list (list string)) :
  answers_within_batch env ->
  incl (concat slices) (Object_keys tokenList) ->
  forall past,
    exists written,
      store_writes (fst (run env past (forEachSlice this tokenList slices)))
      = map (map TokenOf) written
      /\ forall t,
           In t (concat written) ->
           exists key,
             In key (concat slices)
             /\ isEqualCaseInsensitive (address t) key = true.
Proof.
  intros Hcontract.
  induction slices as [|s slices IH]; intros Hincl past.
  - exists []. split; [reflexivity | intros t []].
  - cbn [concat] in Hincl.
    assert (Hs : incl s (Object_keys tokenList))
      by (intros a Ha; apply Hincl; apply in_or_app; now left).
    assert (Hrest : incl (concat slices) (Object_keys tokenList))
      by (intros a Ha; apply Hincl; apply in_or_app; now right).
    destruct (assetsContractController this) eqn:Hset.
    2:{ cbn [forEachSlice]. rewrite Hset.
        exists []. split; [reflexivity | intros t []]. }
    rewrite run_forEachSlice_cons by congruence. cbv zeta.
    destruct (getBalancesInSingleCall env past (selectedAddress this) s)
      as [error|result] eqn:Hresp.
    { exists []. split; [reflexivity | intros t []]. }
    destruct (reconciled_writes_own
                (past ++ [BalancesFetched (selectedAddress this) s
                            (OracleReturns result)])
                result s Hs)
      as (w1 & Hw1 & Hin1).
    { intros balances ->. exact (Hcontract _ _ _ _ Hresp). }
    unfold after, and_then.
    destruct (reconciled env this tokenList _ result) as [e1 [|err]];
      cbn [fst snd] in *.
    + destruct (IH Hrest
                  ((past ++ [BalancesFetched (selectedAddress this) s
                               (OracleReturns result)]) ++ e1))
        as (w2 & Hw2 & Hin2).
      exists (w1 ++ w2). cbn [store_writes].
      rewrite store_writes_app, Hw1, Hw2, map_app. split; [reflexivity|].
      intros t Ht. rewrite concat_app in Ht. cbn [concat].
      apply in_app_or in Ht. destruct Ht as [Ht|Ht].
      * destruct (Hin1 t Ht) as (k & Hk & E).
        exists k. split; [apply in_or_app; now left | exact E].
      * destruct (Hin2 t Ht) as (k & Hk & E).
        exists k. split; [apply in_or_app; now right | exact E].
    + exists w1. cbn [store_writes]. split; [exact Hw1|].
      intros t Ht. destruct (Hin1 t Ht) as (k & Hk & E).
      exists k. cbn [concat]. split; [apply in_or_app; now left | exact E].
Qed.

End Failure.

Section FailedCall.

Context {imports : Imports}.
Variable env : Environment.
Variable this : Controller.
Variable tokenList : TokenList.


End FailedCall.

(** ** Scheduler: interval, restart, preference changes, construction *)

Lemma strict_eq_string_spec (a b : option string) :
  strict_eq_string a b = true <-> a = b.
Proof.
  destruct a as [x|], b as [y|]; cbn; split; intro H;
    try discriminate; try reflexivity.
  - apply String.eqb_eq in H. now subst.
  - injection H as ->. apply String.eqb_refl.
Qed.

Lemma strict_eq_bool_spec (a b : option bool) :
  strict_eq_bool a b = true <-> a = b.
Proof.
  destruct a as [[]|], b as [[]|]; cbn; split; intro H;
    try discriminate; reflexivity.
Qed.

Lemma set_interval_armed (this : Controller) (interval : Z) (timers : Timers) :
  interval <> 0%Z ->
  set_interval this interval timers
  = (with_handle this (Some (next_handle timers)),
     {| next_handle := S (next_handle timers);
        running :=
          (next_handle timers, interval) :: running (cleared this timers) |}).
Proof.
  intro Hi. unfold set_interval, cleared.
  destruct (Z.eqb_spec interval 0) as [E|_]; [contradiction|].
  destruct (_handle this); reflexivity.
Qed.

Lemma set_interval_idle (this : Controller) (timers : Timers) :
  set_interval this 0 timers = (this, cleared this timers).
Proof. reflexivity. Qed.

Lemma set_interval_mirrors (this : Controller) (interval : Z) (timers : Timers) :
  selectedAddress (fst (set_interval this interval timers)) = selectedAddress this
  /\ useTokenDetection (fst (set_interval this interval timers))
     = useTokenDetection this.
Proof.
  unfold set_interval. destruct (interval =? 0)%Z; cbn; auto.
Qed.

Section Scheduler.

Context {imports : Imports}.

(** C6, as the code has it.  [restartTokenDetection] does nothing while
    the gate is closed, and nothing either while the gate is open but no
    account is selected.  With the gate open and an account selected it
    starts [detectNewTokens] once, whatever the timer, and sets the
    interval to [DEFAULT_INTERVAL]: the timer held in [_handle] is
    cleared, and when [DEFAULT_INTERVAL] is not zero a fresh timer of that
    period is armed and becomes [_handle]. *)
Theorem restart_needs_open_gate_and_account
    (this : Controller) (timers : Timers) :
  (isActive this = false ->
   restartTokenDetection this timers = (this, timers, []))
  /\ (truthy_string (selectedAddress this) = false ->
      restartTokenDetection this timers = (this, timers, []))
  /\ (isActive this = true -> truthy_string (selectedAddress this) = true ->
      restartTokenDetection this timers
      = (fst (set_interval this DEFAULT_INTERVAL timers),
         snd (set_interval this DEFAULT_INTERVAL timers),
         [detectNewTokens this])
      /\ (DEFAULT_INTERVAL <> 0%Z ->
          restartTokenDetection this timers
          = (with_handle this (Some (next_handle timers)),
             {| next_handle := S (next_handle timers);
                running :=
                  (next_handle timers, DEFAULT_INTERVAL)
                    :: running (cleared this timers) |},
             [detectNewTokens this]))).
Proof.
  unfold restartTokenDetection. split; [|split].
  - intros ->. reflexivity.
  - intros ->. now rewrite andb_false_r.
  - intros -> ->. cbn [andb negb]. split.
    + now destruct (set_interval this DEFAULT_INTERVAL timers).
    + intros Hd. now rewrite set_interval_armed by exact Hd.
Qed.

Lemma restart_mirrors (this : Controller) (timers : Timers) :
  selectedAddress (fst (fst (restartTokenDetection this timers)))
  = selectedAddress this
  /\ useTokenDetection (fst (fst (restartTokenDetection this timers)))
     = useTokenDetection this.
Proof.
  unfold restartTokenDetection.
  destruct (negb _); [cbn; auto|].
  pose proof (set_interval_mirrors this DEFAULT_INTERVAL timers) as H.
  destruct (set_interval this DEFAULT_INTERVAL timers). exact H.
Qed.

Lemma restart_runs_at_most_once (this : Controller) (timers : Timers) :
  length (snd (restartTokenDetection this timers)) <= 1.
Proof.
  unfold restartTokenDetection.
  destruct (negb _); [cbn; lia|].
  destruct (set_interval this DEFAULT_INTERVAL timers). cbn. lia.
Qed.

(** C9.  The preferences callback compares the delivered pair with the
    mirrored one.  When both values are the same it does nothing: no
    mirror update, no restart, no run.  When one differs it stores the
    pair and calls [restartTokenDetection].  Hence the second of two
    notifications that carry the same pair changes nothing and starts no
    run, and the two together start at most one run. *)
Theorem preference_change_restarts_on_difference
    (this : Controller) (timers : Timers) (state : PreferencesState) :
  (selectedAddress this = state_selectedAddress state ->
   useTokenDetection this = state_useTokenDetection state ->
   onPreferencesChange this timers state = (this, timers, []))
  /\ (~ (selectedAddress this = state_selectedAddress state
         /\ useTokenDetection this = state_useTokenDetection state) ->
      onPreferencesChange this timers state
      = restartTokenDetection
          (with_preferences this
             (state_selectedAddress state) (state_useTokenDetection state))
          timers)
  /\ (let first := onPreferencesChange this timers state in
      let second :=
        onPreferencesChange (fst (fst first)) (snd (fst first)) state in
      second = (fst (fst first), snd (fst first), [])
      /\ length (snd first ++ snd second) <= 1).
Proof.
  assert (Hsame : forall c t,
            selectedAddress c = state_selectedAddress state ->
            useTokenDetection c = state_useTokenDetection state ->
            onPreferencesChange c t state = (c, t, [])).
  { intros c t H1 H2. unfold onPreferencesChange.
    apply strict_eq_string_spec in H1. apply strict_eq_bool_spec in H2.
    now rewrite H1, H2. }
  assert (Hdiff :
            ~ (selectedAddress this = state_selectedAddress state
               /\ useTokenDetection this = state_useTokenDetection state) ->
            onPreferencesChange this timers state
            = restartTokenDetection
                (with_preferences this
                   (state_selectedAddress state) (state_useTokenDetection state))
                timers).
  { intro Hne. unfold onPreferencesChange.
    destruct (strict_eq_string (selectedAddress this) (state_selectedAddress state))
      eqn:E1; [|reflexivity].
    destruct (strict_eq_bool (useTokenDetection this)
                (state_useTokenDetection state))
      eqn:E2; [|reflexivity].
    exfalso. apply Hne.
    split; [now apply strict_eq_string_spec | now apply strict_eq_bool_spec]. }
  split; [apply Hsame|]. split; [exact Hdiff|].
  cbv zeta.
  assert (Hmirror :
            selectedAddress (fst (fst (onPreferencesChange this timers state)))
            = state_selectedAddress state
            /\ useTokenDetection (fst (fst (onPreferencesChange this timers state)))
               = state_useTokenDetection state
            /\ length (snd (onPreferencesChange this timers state)) <= 1).
  { unfold onPreferencesChange.
    destruct (strict_eq_string (selectedAddress this) (state_selectedAddress state))
      eqn:E1;
    destruct (strict_eq_bool (useTokenDetection this)
                (state_useTokenDetection state))
      eqn:E2; cbn [negb orb].
    1:{ cbn. apply strict_eq_string_spec in E1. apply strict_eq_bool_spec in E2.
        repeat split; auto. }
    all: destruct (restart_mirrors
                     (with_preferences this
                        (state_selectedAddress state)
                        (state_useTokenDetection state)) timers) as [M1 M2];
      repeat split; [exact M1 | exact M2 | apply restart_runs_at_most_once]. }
  destruct Hmirror as (M1 & M2 & Hlen).
  rewrite (Hsame _ _ M1 M2). split; [reflexivity|].
  cbn [snd]. now rewrite app_nil_r.
Qed.

(** C8, as the code has it.  The constructor has no branch that fails:
    for every options object it yields a controller.  An absent
    collaborator leaves its field, and the mirrors read from it, unset
    and registers no subscription.  The timer does not depend on the
    collaborators: it is armed exactly when the interval, given or
    [DEFAULT_INTERVAL], is not zero. *)
Theorem constructor_tolerates_missing_collaborators
    (config : Config) (timers : Timers) :
  let interval :=
    match config_interval config with
    | Some i => i
    | None => DEFAULT_INTERVAL
    end in
  let this := fst (fst (constructor config timers)) in
  let timers' := snd (fst (constructor config timers)) in
  let subscriptions := snd (constructor config timers) in
  (interval <> 0%Z ->
   _handle this = Some (next_handle timers)
   /\ running timers' = (next_handle timers, interval) :: running timers)
  /\ (interval = 0%Z -> _handle this = None /\ timers' = timers)
  /\ (config_network config = None -> _network this = None /\ web3 this = None)
  /\ (config_keyringMemStore config = None ->
      _keyringMemStore this = None
      /\ ~ In KeyringMemStoreSubscription subscriptions)
  /\ (config_tokenList config = None -> _tokenList this = None)
  /\ (config_preferences config = None ->
      preferences this = None
      /\ selectedAddress this = None /\ useTokenDetection this = None
      /\ ~ In PreferencesSubscription subscriptions)
  /\ (config_tokensController config = None ->
      tokensController this = None
      /\ tokenAddresses this = None /\ hiddenTokens this = None
      /\ detectedTokens this = None
      /\ ~ In TokensControllerSubscription subscriptions)
  /\ (config_assetsContractController config = None ->
      assetsContractController this = None)
  /\ (config_trackMetaMetricsEvent config = None ->
      _trackMetaMetricsEvent this = None).
Proof.
  cbv zeta. unfold constructor.
  set (interval := match config_interval config with
                   | Some i => i
                   | None => DEFAULT_INTERVAL
                   end).
  split; [|split].
  - intro Hi. rewrite set_interval_armed by exact Hi. cbn. auto.
  - intro Hi. rewrite Hi, set_interval_idle. cbn. auto.
  - destruct (set_interval blank interval timers) as [armed timers'].
    destruct config as [i prefs network keyring list tokensC assets track].
    cbn [fst snd _network web3 _keyringMemStore _tokenList preferences
         selectedAddress useTokenDetection tokensController tokenAddresses
         hiddenTokens detectedTokens assetsContractController
         _trackMetaMetricsEvent config_preferences config_network
         config_keyringMemStore config_tokenList config_tokensController
         config_assetsContractController config_trackMetaMetricsEvent].
    repeat match goal with |- _ /\ _ => split end;
      intros ->; cbn [presence subscribe_if app];
      repeat match goal with |- _ /\ _ => split end;
      try reflexivity;
      repeat match goal with x : option _ |- _ => destruct x end; cbn;
      intro H; repeat (destruct H as [H|H]; [discriminate|]); exact H.
Qed.

End Scheduler.

(** ** The whole tick *)

Section WholeTick.

Context {imports : Imports}.

(** With the gate open, detection on and the collaborators set, a tick
    reads the chain id and the catalog, sets the provider and enters the
    batch loop on the slices of the candidate list. *)
Lemma run_detectNewTokens_enabled
    (env : Environment) (this : Controller) (past : list Event)
    (candidates : list string) :
  isActive this = true ->
  truthy_bool (useTokenDetection this) = true ->
  _network this <> None ->
  isTokenDetectionEnabledForNetwork (provider_chainId env) = true ->
  _tokenList this <> None ->
  web3 this <> None ->
  tokensToDetect this (tokenList_state env) = inr candidates ->
  let reads :=
    [ChainIdRead (provider_chainId env);
     TokenListRead (tokenList_state env);
     ProviderSet] in
  let loop :=
    run env (past ++ reads)
      (forEachSlice this (tokenList_state env)
         (sliceOfTokensToDetect candidates)) in
  run env past (detectNewTokens this) = (reads ++ fst loop, snd loop).
Proof.
  intros Hgate Huse Hnet Hen Hlist Hweb Hc. cbv zeta.
  unfold detectNewTokens. rewrite Hgate, Huse. cbn [negb].
  destruct (_network this); [|contradiction].
  cbn [run]. rewrite Hen. cbn [negb].
  destruct (_tokenList this); [|contradiction].
  cbn [run].
  destruct (web3 this); [|contradiction].
  cbn [run]. rewrite Hc.
  rewrite <- !app_assoc. cbn [app].
  now destruct (run env _ (forEachSlice _ _ _)).
Qed.

(** Against an oracle that finds no balance, the loop is one call per
    slice. *)
Lemma run_forEachSlice_no_balance
    (env : Environment) (this : Controller) (tokenList : TokenList)
    (slices : list (list string)) :
  assetsContractController this <> None ->
  (forall past account tokensSlice,
     getBalancesInSingleCall env past account tokensSlice
     = OracleReturns (Some [])) ->
  forall past,
    run env past (forEachSlice this tokenList slices)
    = (map (fun s => BalancesFetched (selectedAddress this) s
                       (OracleReturns (Some [])))
         slices,
       Resolved).
Proof.
  intros Hset Hquiet.
  induction slices as [|s slices IH]; intro past; [reflexivity|].
  rewrite run_forEachSlice_cons by exact Hset. cbv zeta.
  rewrite Hquiet. unfold after, and_then, reconciled.
  cbn [reconcile Object_keys map collectTokensWithBalance length Nat.ltb
       Nat.leb run fst snd app].
  now rewrite IH.
Qed.

(** A loop over two slices where the first batch gives discoveries that
    are stored and the oracle call for the second fails. *)
Lemma run_two_slices_second_fails
    (env : Environment) (this : Controller) (tokenList : TokenList)
    (past : list Event) (b1 b2 : list string) (balances : Balances)
    (details : list string) (found : list TokenWithBalance)
    (error : Exception) :
  assetsContractController this <> None ->
  _trackMetaMetricsEvent this <> None ->
  tokensController this <> None ->
  getBalancesInSingleCall env past (selectedAddress this) b1
  = OracleReturns (Some balances) ->
  collectTokensWithBalance tokenList (Object_keys balances)
  = inr (details, found) ->
  found <> [] ->
  (forall p, addDetectedTokens env p found = StoreResolves) ->
  (forall p,
     getBalancesInSingleCall env
       (past ++ BalancesFetched (selectedAddress this) b1
                  (OracleReturns (Some balances)) :: p)
       (selectedAddress this) b2
     = OracleThrows error) ->
  run env past (forEachSlice this tokenList [b1; b2])
  = ([BalancesFetched (selectedAddress this) b1 (OracleReturns (Some balances));
      Tracked (tokenDetectedEvent details);
      DetectedTokensAdded found StoreResolves;
      BalancesFetched (selectedAddress this) b2 (OracleThrows error);
      Warned fetch_failed_message error],
     Resolved).
Proof.
  intros Hset Hhook Hstore Hfirst Hcollect Hne Hstored Hsecond.
  rewrite run_forEachSlice_cons by exact Hset. cbv zeta. rewrite Hfirst.
  unfold after, and_then, reconciled, reconcile. rewrite Hcollect.
  destruct found as [|t found]; [contradiction|].
  cbn [length Nat.ltb Nat.leb].
  destruct (_trackMetaMetricsEvent this); [|contradiction].
  destruct (tokensController this); [|contradiction].
  cbn [run]. rewrite Hstored. cbn [run fst snd app].
  rewrite run_forEachSlice_cons by exact Hset. cbv zeta.
  rewrite <- app_assoc. cbn [app]. rewrite Hsecond. reflexivity.
Qed.

End WholeTick.

Lemma oracle_calls_fetched (account : option string) (slices : list (list string)) :
  oracle_calls
    (map (fun s => BalancesFetched account s (OracleReturns (Some []))) slices)
  = slices.
Proof.
  induction slices as [|s slices IH]; [reflexivity|].
  cbn [map oracle_calls]. now rewrite IH.
Qed.

(** ** Facts about the sample catalogs *)

Lemma Object_keys_sample_catalog (n : nat) :
  Object_keys (sample_catalog n) = sample_keys n.
Proof.
  unfold Object_keys, sample_catalog, sample_keys. now rewrite map_map.
Qed.

Lemma sample_keys_length (n : nat) : length (sample_keys n) = n.
Proof. unfold sample_keys. now rewrite length_map, length_seq. Qed.

Lemma sample_keys_not_empty (n : nat) : ~ In "" (sample_keys n).
Proof.
  unfold sample_keys. intro H. apply in_map_iff in H.
  destruct H as (i & Hi & _). discriminate.
Qed.

Lemma sample_address_injective : Injective sample_address.
Proof.
  intros a b H. unfold sample_address in H. injection H as H.
  apply (f_equal NilEmpty.uint_of_string) in H.
  rewrite !NilEmpty.usu in H. injection H as H.
  apply (f_equal Nat.of_uint) in H.
  now rewrite !DecimalNat.Unsigned.of_to in H.
Qed.

Lemma sample_keys_NoDup (n : nat) : NoDup (sample_keys n).
Proof.
  unfold sample_keys.
  apply Injective_map_NoDup; [exact sample_address_injective | apply seq_NoDup].
Qed.

Lemma filter_all {A : Type} (f : A -> bool) (l : list A) :
  (forall a, f a = true) -> filter f l = l.
Proof.
  intro H. induction l as [|a l IH]; [reflexivity|].
  cbn [filter]. now rewrite H, IH.
Qed.

(** With no known token, every catalog address is a candidate. *)
Lemma sample_candidates (n : nat) :
  tokensToDetect sample_controller (sample_catalog n) = inr (sample_keys n).
Proof.
  rewrite (tokensToDetect_candidate_list sample_controller [] [] []
             eq_refl eq_refl eq_refl)
    by (rewrite Object_keys_sample_catalog; apply sample_keys_not_empty).
  unfold candidate_list. rewrite Object_keys_sample_catalog.
  now rewrite filter_all by reflexivity.
Qed.

(** A tick of the sample controller over a sample catalog, against the
    oracle that finds no balance: its oracle calls are the two slices of
    the catalog addresses. *)
Lemma sample_tick_calls (n : nat) :
  oracle_calls
    (fst (run (quiet_env (sample_catalog n)) []
            (detectNewTokens (imports := sample_imports) sample_controller)))
  = sliceOfTokensToDetect (sample_keys n)
  /\ snd (run (quiet_env (sample_catalog n)) []
            (detectNewTokens (imports := sample_imports) sample_controller))
     = Resolved.
Proof.
  rewrite (run_detectNewTokens_enabled (imports := sample_imports)
             (quiet_env (sample_catalog n)) sample_controller []
             (sample_keys n));
    try reflexivity; try discriminate; [|apply sample_candidates].
  cbv zeta.
  rewrite run_forEachSlice_no_balance by (discriminate || reflexivity).
  cbn [fst snd]. rewrite oracle_calls_app, oracle_calls_fetched.
  split; reflexivity.
Qed.

Lemma toLowerCase_digits (d : Decimal.uint) :
  toLowerCase (NilEmpty.string_of_uint d) = NilEmpty.string_of_uint d.
Proof.
  induction d as [|d IH|d IH|d IH|d IH|d IH|d IH|d IH|d IH|d IH|d IH];
    cbn [NilEmpty.string_of_uint toLowerCase];
    try rewrite IH; reflexivity.
Qed.

Lemma toLowerCase_sample_address (n : nat) :
  toLowerCase (sample_address n) = sample_address n.
Proof.
  unfold sample_address. cbn [toLowerCase]. now rewrite toLowerCase_digits.
Qed.

Lemma sample_catalog_keyed (n : nat) : keyed_by_address (sample_catalog n).
Proof.
  split.
  - intros key entry Hin. unfold sample_catalog in Hin.
    apply in_map_iff in Hin. destruct Hin as (i & E & _).
    injection E as <- <-. apply isEqualCaseInsensitive_refl.
  - rewrite Object_keys_sample_catalog.
    replace (map toLowerCase (sample_keys n)) with (sample_keys n);
      [apply sample_keys_NoDup|].
    unfold sample_keys. rewrite map_map. apply map_ext.
    intro i. symmetry. apply toLowerCase_sample_address.
Qed.

Lemma getOwnProperty_sample_seq (len : nat) :
  forall a i,
    a <= i < a + len ->
    getOwnProperty
      (map (fun i => (sample_address i, entry_of (sample_address i) "TKN"))
         (seq a len))
      (sample_address i)
    = Some (entry_of (sample_address i) "TKN").
Proof.
  induction len as [|len IH]; intros a i Hi; [lia|].
  cbn [seq map getOwnProperty].
  destruct (String.eqb_spec (sample_address a) (sample_address i)) as [E|N].
  - apply sample_address_injective in E. now subst.
  - apply IH. assert (a <> i) by (intros ->; now apply N). lia.
Qed.

Lemma collect_sample (n i : nat) :
  i < n ->
  collectTokensWithBalance (sample_catalog n) [sample_address i]
  = inr ([("TKN - " ++ sample_address i)%string],
         [TokenOf (discovery (entry_of (sample_address i) "TKN"))]).
Proof.
  intro Hi. cbn [collectTokensWithBalance]. unfold get, sample_catalog.
  rewrite getOwnProperty_sample_seq by lia. reflexivity.
Qed.

(** The two slices of a catalog of 1002 tokens: the first thousand
    addresses, and the next one. *)
Lemma sample_slices_1002 :
  sliceOfTokensToDetect (sample_keys 1002)
  = [firstn 1000 (sample_keys 1002); [sample_address 1000]].
Proof.
  rewrite sliceOfTokensToDetect_eq, sample_keys_length. reflexivity.
Qed.

Lemma sample_first_of_first_slice :
  firstn 1 (firstn 1000 (sample_keys 1002)) = [sample_address 0].
Proof. reflexivity. Qed.

Lemma second_call_fails_env_within_batch (catalog : TokenList) :
  answers_within_batch (second_call_fails_env catalog).
Proof.
  intros past account tokensSlice balances.
  cbn [getBalancesInSingleCall second_call_fails_env].
  destruct (oracle_calls past); [|discriminate].
  intro H. injection H as <-.
  unfold Object_keys. rewrite map_map. cbn [fst]. rewrite map_id.
  intros a Ha. now apply (In_firstn 1).
Qed.

(** * Further properties *)

(** ** Every trace of the batch loop *)

Section LoopGrammar.

Context {imports : Imports}.
Variable env : Environment.
Variable this : Controller.
Variable tokenList : TokenList.

(** Whatever the environment answers, the loop leaves one of the traces
    of [loop_trace]. *)
Lemma run_forEachSlice_trace (slices : list (list string)) :
  forall past,
    loop_trace this tokenList slices
      (fst (run env past (forEachSlice this tokenList slices)))
      (snd (run env past (forEachSlice this tokenList slices))).
Proof.
  induction slices as [|s slices IH]; intro past; [constructor|].
  destruct (assetsContractController this) eqn:Hset.
  2:{ cbn [forEachSlice]. rewrite Hset. cbn. now constructor. }
  assert (Hset' : assetsContractController this <> None) by congruence.
  rewrite run_forEachSlice_cons by exact Hset'. cbv zeta.
  destruct (getBalancesInSingleCall env past (selectedAddress this) s)
    as [error|result].
  { cbn [fst snd]. now constructor. }
  unfold after, and_then, reconciled, reconcile. cbn [fst snd].
  destruct result as [balances|].
  2:{ cbn [run fst snd app].
      apply (loop_nothing_found this tokenList s slices None []);
        [exact Hset' | reflexivity | apply IH]. }
  destruct (collectTokensWithBalance tokenList (Object_keys balances))
    as [e|[details found]] eqn:Hc.
  { cbn [run fst snd]. now apply loop_unknown_key. }
  destruct found as [|t found].
  { cbn [length Nat.ltb Nat.leb run fst snd app].
    apply (loop_nothing_found this tokenList s slices (Some balances) details);
      [exact Hset' | exact Hc | apply IH]. }
  cbn [length Nat.ltb Nat.leb].
  destruct (_trackMetaMetricsEvent this) eqn:Htrack.
  2:{ cbn [run fst snd].
      apply (loop_no_hook this tokenList s slices (Some balances) details
               (t :: found)); auto; discriminate. }
  destruct (tokensController this) eqn:Hstore.
  2:{ cbn [run fst snd].
      apply (loop_no_store this tokenList s slices (Some balances) details
               (t :: found)); auto; try discriminate; congruence. }
  cbn [run].
  destruct (addDetectedTokens env _ (t :: found)) as [|e].
  - cbn [run fst snd app].
    apply (loop_stored this tokenList s slices (Some balances) details
             (t :: found)); auto; try discriminate; apply IH.
  - cbn [run fst snd].
    apply (loop_store_rejects this tokenList s slices (Some balances) details
             (t :: found)); auto; discriminate.
Qed.

End LoopGrammar.

Section LoopFacts.

Context {imports : Imports}.
Variable this : Controller.
Variable tokenList : TokenList.

(** The telemetry event that announces a store write. *)
Definition announcement (found : list TokenWithBalance) : MetricsEvent :=
  tokenDetectedEvent (map detail found).

Lemma discoveries_spec (result : option Balances) details found :
  discoveries tokenList result = inr (details, found) ->
  details = map detail found
  /\ Forall (fun t => exists key, found_under tokenList key t) found.
Proof.
  intro H. destruct result as [balances|]; cbn in H.
  - destruct (collectTokensWithBalance_spec tokenList _ _ _ H) as [Hall Hd].
    split; [exact Hd|].
    clear H Hd. induction Hall as [|key t keys found' Hkt _ IH];
      constructor; [|exact IH].
    now exists key.
  - injection H as <- <-. split; [reflexivity | constructor].
Qed.

Lemma loop_trace_counts slices evs out :
  loop_trace this tokenList slices evs out ->
  length (oracle_calls evs) <= length slices
  /\ catalog_reads evs = []
  /\ length (warnings evs) <= 1
  /\ length (store_writes evs) <= length (telemetry evs)
  /\ length (telemetry evs) <= length (oracle_calls evs)
  /\ Forall (fun w => w <> []) (store_writes evs).
Proof.
  induction 1; cbn [oracle_calls catalog_reads warnings store_writes
                    telemetry length];
    repeat match goal with
           | H : _ /\ _ |- _ => destruct H
           end;
    repeat split; auto; try lia.
Qed.

Lemma loop_trace_rejection slices evs out :
  loop_trace this tokenList slices evs out ->
  (store_rejections evs = []
   /\ forall e, out = Rejected e -> warnings evs = [])
  \/ exists pre toks e,
       evs = pre ++ [DetectedTokensAdded toks (StoreRejects e)]
       /\ out = Rejected e
       /\ store_rejections pre = []
       /\ warnings pre = [].
Proof.
  induction 1;
    try (left; split;
         [reflexivity | intros ? ?; first [discriminate | reflexivity]]).
  - destruct IHloop_trace as [[Hr Hw]|(pre & toks & e & -> & -> & Hr & Hw)].
    + left. split; [exact Hr | exact Hw].
    + right.
      exists (BalancesFetched (selectedAddress this) s (OracleReturns result)
                :: pre), toks, e.
      repeat split; assumption.
  - right.
    exists [BalancesFetched (selectedAddress this) s (OracleReturns result);
            Tracked (tokenDetectedEvent details)], found, e.
    repeat split; reflexivity.
  - destruct IHloop_trace as [[Hr Hw]|(pre & toks & e & -> & -> & Hr & Hw)].
    + left. split; [exact Hr | exact Hw].
    + right.
      exists (BalancesFetched (selectedAddress this) s (OracleReturns result)
                :: Tracked (tokenDetectedEvent details)
                :: DetectedTokensAdded found StoreResolves
                :: pre), toks, e.
      repeat split; assumption.
Qed.

Lemma loop_trace_warning slices evs out :
  loop_trace this tokenList slices evs out ->
  warnings evs <> [] ->
  out = Resolved
  /\ exists pre message error,
       evs = pre ++ [Warned message error] /\ warnings pre = [].
Proof.
  induction 1; cbn [warnings]; intro Hw; try congruence.
  - split; [reflexivity|].
    now exists [], fetch_failed_message,
      (TypeError "this.assetsContractController").
  - split; [reflexivity|].
    exists [BalancesFetched (selectedAddress this) s (OracleThrows error)],
           fetch_failed_message, error.
    split; reflexivity.
  - destruct (IHloop_trace Hw) as [-> (pre & m & e & -> & Hp)].
    split; [reflexivity|].
    exists (BalancesFetched (selectedAddress this) s (OracleReturns result)
              :: pre), m, e.
    split; [reflexivity | exact Hp].
  - destruct (IHloop_trace Hw) as [-> (pre & m & e & -> & Hp)].
    split; [reflexivity|].
    exists (BalancesFetched (selectedAddress this) s (OracleReturns result)
              :: Tracked (tokenDetectedEvent details)
              :: DetectedTokensAdded found StoreResolves
              :: pre), m, e.
    split; [reflexivity | exact Hp].
Qed.

Lemma loop_trace_announced slices evs out :
  loop_trace this tokenList slices evs out ->
  (exists extra,
     telemetry evs = map announcement (store_writes evs) ++ extra
     /\ length extra <= 1)
  /\ Forall
       (Forall (fun t => exists key, found_under tokenList key t))
       (store_writes evs).
Proof.
  induction 1; cbn [telemetry store_writes map app];
    try (split; [exists []; split; [reflexivity | cbn; lia] | constructor]).
  - exact IHloop_trace.
  - split; [|constructor].
    exists [tokenDetectedEvent details]. split; [reflexivity | cbn; lia].
  - destruct (discoveries_spec _ _ _ H0) as [-> Hall].
    split; [exists []; split; [reflexivity | cbn; lia]|].
    constructor; [exact Hall | constructor].
  - destruct (discoveries_spec _ _ _ H0) as [-> Hall].
    destruct IHloop_trace as [(extra & -> & Hlen) Hrest].
    split; [exists extra; split; [reflexivity | exact Hlen]|].
    constructor; [exact Hall | exact Hrest].
Qed.

End LoopFacts.

(** ** Every trace of a tick *)

Section TickFacts.

Context {imports : Imports}.
Variable env : Environment.
Variable this : Controller.

(** A tick either stops within its three reads or goes on into the
    batch loop on the slices of the candidates. *)
Lemma tick_shape (past : list Event) :
  (exists n,
     fst (run env past (detectNewTokens this)) = firstn n (prelude env)
     /\ (snd (run env past (detectNewTokens this)) = Resolved
         \/ exists what,
              snd (run env past (detectNewTokens this))
              = Rejected (TypeError what)))
  \/ exists candidates,
       tokensToDetect this (tokenList_state env) = inr candidates
       /\ run env past (detectNewTokens this)
          = (prelude env
               ++ fst (run env (past ++ prelude env)
                         (forEachSlice this (tokenList_state env)
                            (sliceOfTokensToDetect candidates))),
             snd (run env (past ++ prelude env)
                    (forEachSlice this (tokenList_state env)
                       (sliceOfTokensToDetect candidates)))).
Proof.
  unfold detectNewTokens.
  destruct (isActive this); cbn [negb];
    [|left; exists 0; cbn; auto].
  destruct (truthy_bool (useTokenDetection this)); cbn [negb];
    [|left; exists 0; cbn; auto].
  destruct (_network this);
    [|left; exists 0; cbn; eauto].
  cbn [run].
  destruct (isTokenDetectionEnabledForNetwork (provider_chainId env));
    cbn [negb]; [|left; exists 1; cbn; auto].
  destruct (_tokenList this);
    [|left; exists 1; cbn; eauto].
  cbn [run].
  destruct (web3 this); [|left; exists 2; cbn; eauto].
  cbn [run].
  destruct (tokensToDetect this (tokenList_state env)) as [e|candidates] eqn:Hc.
  - left. exists 3. cbn. split; [reflexivity|]. right.
    unfold tokensToDetect in Hc. revert Hc.
    generalize (Object_keys (tokenList_state env)). intros keys. revert e.
    induction keys as [|k keys IH]; intros e Hc; [discriminate|].
    cbn [tokensToDetect_loop] in Hc.
    destruct (isUnknownToken this k) as [e'|b] eqn:Hk.
    + injection Hc as <-. unfold isUnknownToken in Hk.
      destruct (tokenAddresses this); [|injection Hk as <-; eauto].
      destruct (not_find_string _ _); [|discriminate].
      destruct (hiddenTokens this); [|injection Hk as <-; eauto].
      destruct (not_find_string _ _); [|discriminate].
      destruct (detectedTokens this); [discriminate | injection Hk as <-; eauto].
    + destruct (tokensToDetect_loop this keys) as [e'|rest];
        [|discriminate].
      injection Hc as <-. now apply IH.
  - right. exists candidates. split; [reflexivity|].
    unfold prelude. rewrite <- !app_assoc. cbn [app].
    now destruct (run env _ (forEachSlice _ _ _)).
Qed.

End TickFacts.

(** ** The keyring and the tokens callbacks *)

Section Callbacks.

Context {imports : Imports}.

(** X1.  The keyring callback (lines 216-223) compares the delivered
    flag with the mirrored one.  The same value does nothing.  A change
    to a falsy value only stores it: no run, no timer touched.  A change
    to true stores it and calls [restartTokenDetection].  So the second
    of two notifications with the same flag does nothing, and the two
    together start at most one run. *)
Theorem keyring_change_restarts_on_unlock
    (this : Controller) (timers : Timers) (unlocked : option bool) :
  (isUnlocked this = unlocked ->
   onKeyringMemStoreChange this timers unlocked = (this, timers, []))
  /\ (isUnlocked this <> unlocked -> truthy_bool unlocked = false ->
      onKeyringMemStoreChange this timers unlocked
      = (with_isUnlocked this unlocked, timers, []))
  /\ (isUnlocked this <> unlocked -> truthy_bool unlocked = true ->
      onKeyringMemStoreChange this timers unlocked
      = restartTokenDetection (with_isUnlocked this unlocked) timers)
  /\ (let first := onKeyringMemStoreChange this timers unlocked in
      let second :=
        onKeyringMemStoreChange (fst (fst first)) (snd (fst first)) unlocked in
      second = (fst (fst first), snd (fst first), [])
      /\ length (snd first ++ snd second) <= 1).
Proof.
  assert (Hsame : forall c t,
            isUnlocked c = unlocked ->
            onKeyringMemStoreChange c t unlocked = (c, t, [])).
  { intros c t H. unfold onKeyringMemStoreChange.
    apply strict_eq_bool_spec in H. now rewrite H. }
  assert (Hdiff : isUnlocked this <> unlocked ->
                  strict_eq_bool (isUnlocked this) unlocked = false).
  { intro Hne. destruct (strict_eq_bool (isUnlocked this) unlocked) eqn:E;
      [|reflexivity].
    apply strict_eq_bool_spec in E. contradiction. }
  split; [apply Hsame|]. split; [|split].
  - intros Hne Hfalsy. unfold onKeyringMemStoreChange.
    now rewrite (Hdiff Hne), Hfalsy.
  - intros Hne Htruthy. unfold onKeyringMemStoreChange.
    now rewrite (Hdiff Hne), Htruthy.
  - cbv zeta.
    assert (Hmirror :
              isUnlocked (fst (fst (onKeyringMemStoreChange this timers unlocked)))
              = unlocked
              /\ length (snd (onKeyringMemStoreChange this timers unlocked)) <= 1).
    { unfold onKeyringMemStoreChange.
      destruct (strict_eq_bool (isUnlocked this) unlocked) eqn:E; cbn [negb].
      - apply strict_eq_bool_spec in E. cbn. auto.
      - destruct (truthy_bool unlocked); [|cbn; auto].
        split; [|apply restart_runs_at_most_once].
        unfold restartTokenDetection.
        destruct (negb _); [reflexivity|].
        unfold set_interval. destruct (DEFAULT_INTERVAL =? 0)%Z; reflexivity. }
    destruct Hmirror as [M Hlen].
    rewrite (Hsame _ _ M). split; [reflexivity|].
    cbn [snd]. now rewrite app_nil_r.
Qed.

(** X2.  The tokens callback (lines 67-75) replaces the three mirrors by
    what the notification delivers, an absent list counting as empty, and
    nothing of the earlier mirrors is left: a later notification wins
    whole.  Right after it candidate selection cannot throw, and, the
    catalog addresses being non-empty, it yields exactly the catalog
    addresses that no delivered token, ignored token or detected token
    has.  The callback keeps the gate, the preferences and the timer. *)
Theorem tokens_change_replaces_mirrors
    (this : Controller) (earlier state : TokensState) (tokenList : TokenList) :
  onTokensControllerChange (onTokensControllerChange this earlier) state
  = onTokensControllerChange this state
  /\ isActive (onTokensControllerChange this state) = isActive this
  /\ selectedAddress (onTokensControllerChange this state) = selectedAddress this
  /\ useTokenDetection (onTokensControllerChange this state)
     = useTokenDetection this
  /\ _handle (onTokensControllerChange this state) = _handle this
  /\ (~ In "" (Object_keys tokenList) ->
      tokensToDetect (onTokensControllerChange this state) tokenList
      = inr (candidate_list tokenList
               (map address (or_empty (state_tokens state)))
               (or_empty (state_ignoredTokens state))
               (or_empty (state_detectedTokens state)))).
Proof.
  repeat (split; [reflexivity|]).
  intro Hne. unfold onTokensControllerChange.
  now apply tokensToDetect_candidate_list.
Qed.

(** X3.  Round trip of a discovery.  Take a catalog key whose entry
    carries that key as its address, up to case.  Once a notification of
    the tokens controller delivers the token built from that entry among
    the detected tokens, the key is no longer a candidate. *)
Theorem delivered_discovery_is_not_requeried
    (this : Controller) (state : TokensState) (tokenList : TokenList)
    (key : string) (entry : TokenListEntry) (candidates : list string) :
  ~ In "" (Object_keys tokenList) ->
  isEqualCaseInsensitive (entry_address entry) key = true ->
  In (discovery entry) (or_empty (state_detectedTokens state)) ->
  tokensToDetect (onTokensControllerChange this state) tokenList
  = inr candidates ->
  ~ In key candidates.
Proof.
  intros Hne Hkey Hin Hc Hcand.
  unfold onTokensControllerChange in Hc.
  rewrite (tokensToDetect_candidate_list
             (with_known_tokens this
                (map address (or_empty (state_tokens state)))
                (or_empty (state_ignoredTokens state))
                (or_empty (state_detectedTokens state)))
             _ _ _ eq_refl eq_refl eq_refl tokenList Hne) in Hc.
  injection Hc as <-.
  apply candidate_list_In in Hcand. destruct Hcand as (_ & _ & _ & Hd).
  unfold known_in in Hd.
  assert (Hex : existsb (fun x => isEqualCaseInsensitive x key)
                  (map address (or_empty (state_detectedTokens state)))
                = true).
  { apply existsb_exists. exists (entry_address entry).
    split; [|exact Hkey].
    apply in_map_iff. exists (discovery entry). now split. }
  congruence.
Qed.

End Callbacks.

(** ** The timer and the life of a controller *)

Lemma filter_other_handles (h : nat) (l : list (nat * Z)) :
  (forall t, In t l -> fst t = h) ->
  filter (fun t => negb (Nat.eqb (fst t) h)) l = [].
Proof.
  induction l as [|t l IH]; intro Hall; [reflexivity|].
  cbn [filter]. rewrite (Hall t (or_introl eq_refl)), Nat.eqb_refl.
  cbn [negb]. apply IH. intros t' Ht'. apply Hall. now right.
Qed.

Lemma cleared_none (this : Controller) (timers : Timers) :
  one_timer this timers -> running (cleared this timers) = [].
Proof.
  intros [Hmine _]. unfold cleared.
  destruct (_handle this) as [h|] eqn:Hh.
  - unfold clearInterval. cbn [running]. apply filter_other_handles.
    intros [h' i] Ht. apply Hmine in Ht. now injection Ht as ->.
  - destruct (running timers) as [|[h i] l]; [reflexivity|].
    specialize (Hmine h i (or_introl eq_refl)). discriminate.
Qed.

Lemma set_interval_one_timer (this : Controller) (interval : Z) (timers : Timers) :
  one_timer this timers ->
  one_timer (fst (set_interval this interval timers))
    (snd (set_interval this interval timers)).
Proof.
  intro H. pose proof (cleared_none this timers H) as Hc.
  destruct (Z.eq_dec interval 0) as [->|Hi].
  - rewrite set_interval_idle. cbn [fst snd]. unfold one_timer.
    rewrite Hc. split; [intros h i [] | cbn; lia].
  - rewrite set_interval_armed by exact Hi. cbn [fst snd]. unfold one_timer.
    cbn [running _handle with_handle]. rewrite Hc. split; [|cbn; lia].
    intros h i [E|[]]. now injection E as <- _.
Qed.

Lemma one_timer_same_handle (this this' : Controller) (timers : Timers) :
  _handle this' = _handle this -> one_timer this timers -> one_timer this' timers.
Proof. unfold one_timer. intros ->. auto. Qed.

Section Lifetime.

Context {imports : Imports}.

Lemma restart_one_timer (this : Controller) (timers : Timers) :
  one_timer this timers ->
  one_timer (fst (fst (restartTokenDetection this timers)))
    (snd (fst (restartTokenDetection this timers))).
Proof.
  intro H. unfold restartTokenDetection.
  destruct (negb _); [exact H|].
  pose proof (set_interval_one_timer this DEFAULT_INTERVAL timers H) as H'.
  now destruct (set_interval this DEFAULT_INTERVAL timers).
Qed.

Lemma step_one_timer (op : Operation) (this : Controller) (timers : Timers) :
  one_timer this timers ->
  one_timer (fst (fst (step op this timers))) (snd (fst (step op this timers))).
Proof.
  intro H. destruct op; cbn [step].
  - pose proof (set_interval_one_timer this interval timers H) as H'.
    now destruct (set_interval this interval timers).
  - cbn [fst snd]. apply (one_timer_same_handle this); [|exact H].
    now destruct network.
  - cbn [fst snd]. apply (one_timer_same_handle this); [|exact H].
    now destruct store.
  - cbn [fst snd]. apply (one_timer_same_handle this); [|exact H].
    now destruct list.
  - now apply restart_one_timer.
  - exact H.
  - unfold onPreferencesChange. destruct (_ || _); [|exact H].
    apply restart_one_timer.
    now apply (one_timer_same_handle this).
  - cbn [fst snd]. now apply (one_timer_same_handle this).
  - unfold onKeyringMemStoreChange. destruct (negb _); [|exact H].
    destruct (truthy_bool unlocked).
    + apply restart_one_timer. now apply (one_timer_same_handle this).
    + cbn [fst snd]. now apply (one_timer_same_handle this).
Qed.

(** What every step keeps, every sequence of steps keeps, and what every
    run started by a step satisfies, every run of the sequence does. *)
Lemma steps_keep
    (P : Controller -> Timers -> Prop) (Q : Async -> Prop) :
  (forall op this timers,
     P this timers ->
     P (fst (fst (step op this timers))) (snd (fst (step op this timers)))
     /\ Forall Q (snd (step op this timers))) ->
  forall ops this timers,
    P this timers ->
    P (fst (fst (steps ops this timers))) (snd (fst (steps ops this timers)))
    /\ Forall Q (snd (steps ops this timers)).
Proof.
  intros Hstep ops. induction ops as [|op ops IH]; intros this timers HP.
  - cbn. split; [exact HP | constructor].
  - cbn [steps].
    destruct (Hstep op this timers HP) as [HP1 HQ1].
    destruct (step op this timers) as [[this1 timers1] runs1].
    cbn [fst snd] in HP1, HQ1.
    destruct (IH this1 timers1 HP1) as [HP2 HQ2].
    destruct (steps ops this1 timers1) as [[this2 timers2] runs2].
    cbn [fst snd] in *. split; [exact HP2|].
    apply Forall_app. now split.
Qed.

Lemma constructor_one_timer (config : Config) :
  one_timer
    (fst (fst (constructor config {| next_handle := 0; running := [] |})))
    (snd (fst (constructor config {| next_handle := 0; running := [] |}))).
Proof.
  unfold constructor.
  set (interval := match config_interval config with
                   | Some i => i
                   | None => DEFAULT_INTERVAL
                   end).
  assert (H0 : one_timer blank {| next_handle := 0; running := [] |})
    by (split; [intros h i [] | cbn; lia]).
  pose proof (set_interval_one_timer blank interval _ H0) as H.
  destruct (set_interval blank interval _) as [armed timers'].
  cbn [fst snd] in *. now apply (one_timer_same_handle armed).
Qed.


(** X5.  A restart that runs replaces the timer: with the table holding
    only the controller's timer, the gate open, an account selected and
    [DEFAULT_INTERVAL] not zero, after [restartTokenDetection] exactly
    one timer is running, a new one with the period [DEFAULT_INTERVAL],
    whatever the period was before. *)
Theorem restart_replaces_timer (this : Controller) (timers : Timers) :
  one_timer this timers ->
  isActive this = true ->
  truthy_string (selectedAddress this) = true ->
  DEFAULT_INTERVAL <> 0%Z ->
  running (snd (fst (restartTokenDetection this timers)))
  = [(next_handle timers, DEFAULT_INTERVAL)]
  /\ _handle (fst (fst (restartTokenDetection this timers)))
     = Some (next_handle timers).
Proof.
  intros Hone Hgate Hsel Hd. unfold restartTokenDetection.
  rewrite Hgate, Hsel. cbn [andb negb].
  rewrite set_interval_armed by exact Hd. cbn [fst snd running _handle with_handle].
  now rewrite (cleared_none this timers Hone).
Qed.

Lemma step_isOpen (op : Operation) (this : Controller) (timers : Timers) :
  isOpen (fst (fst (step op this timers))) = isOpen this.
Proof.
  assert (Hr : forall c t,
            isOpen (fst (fst (restartTokenDetection c t))) = isOpen c).
  { intros c t. unfold restartTokenDetection. destruct (negb _); [reflexivity|].
    unfold set_interval. destruct (DEFAULT_INTERVAL =? 0)%Z; reflexivity. }
  destruct op; cbn [step].
  - unfold set_interval. destruct (interval =? 0)%Z; reflexivity.
  - now destruct network.
  - now destruct store.
  - now destruct list.
  - apply Hr.
  - reflexivity.
  - unfold onPreferencesChange. destruct (_ || _); [|reflexivity].
    now rewrite Hr.
  - reflexivity.
  - unfold onKeyringMemStoreChange. destruct (negb _); [|reflexivity].
    destruct (truthy_bool unlocked); [now rewrite Hr | reflexivity].
Qed.

Lemma step_inert (op : Operation) (this : Controller) (timers : Timers) :
  truthy_bool (isOpen this) = false ->
  Forall (fun p => p = Resolve) (snd (step op this timers)).
Proof.
  intro Hclosed.
  assert (Hgate : forall c, isOpen c = isOpen this -> isActive c = false).
  { intros c E. unfold isActive. now rewrite E, Hclosed. }
  assert (Hr : forall c t,
            isOpen c = isOpen this ->
            snd (restartTokenDetection c t) = []).
  { intros c t E. unfold restartTokenDetection. now rewrite (Hgate c E). }
  destruct op; cbn [step].
  - destruct (set_interval this interval timers). constructor.
  - constructor.
  - constructor.
  - constructor.
  - rewrite Hr by reflexivity. constructor.
  - cbn [snd]. constructor; [|constructor].
    unfold onInterval, detectNewTokens. now rewrite (Hgate this eq_refl).
  - unfold onPreferencesChange. destruct (_ || _); [|constructor].
    rewrite Hr by reflexivity. constructor.
  - constructor.
  - unfold onKeyringMemStoreChange. destruct (negb _); [|constructor].
    destruct (truthy_bool unlocked); [|constructor].
    rewrite Hr by reflexivity. constructor.
Qed.

(** X6.  The controller does not open its own gate.  No method of the
    file assigns [isOpen], and the constructor leaves it undefined: from
    construction on, through any sequence of assignments, restarts, timer
    ticks and notifications (an unlock included), [isOpen] stays
    undefined and every [detectNewTokens] run that is started returns at
    its first test, without a single call to a collaborator. *)
Theorem lifetime_is_inert_until_opened (config : Config) (ops : list Operation) :
  isOpen (fst (fst (lifetime config ops))) = None
  /\ Forall (fun p => p = Resolve) (snd (lifetime config ops)).
Proof.
  unfold lifetime.
  assert (H0 : isOpen (fst (fst (constructor config
                                   {| next_handle := 0; running := [] |})))
               = None).
  { unfold constructor. now destruct (set_interval blank _ _). }
  destruct (constructor config _) as [[this timers] subs].
  cbn [fst snd] in H0.
  apply (steps_keep (fun c _ => isOpen c = None) (fun p => p = Resolve));
    [|exact H0].
  intros op c t Hc. split.
  - now rewrite step_isOpen.
  - apply step_inert. now rewrite Hc.
Qed.

Lemma step_collaborators (op : Operation) (this : Controller) (timers : Timers) :
  let this' := fst (fst (step op this timers)) in
  ((_network this = None <-> web3 this = None) ->
   (_network this' = None <-> web3 this' = None))
  /\ (_network this <> None -> _network this' <> None)
  /\ (_tokenList this <> None -> _tokenList this' <> None)
  /\ (_keyringMemStore this <> None -> _keyringMemStore this' <> None)
  /\ assetsContractController this' = assetsContractController this
  /\ tokensController this' = tokensController this
  /\ _trackMetaMetricsEvent this' = _trackMetaMetricsEvent this.
Proof.
  assert (Hr : forall c t,
            let c' := fst (fst (restartTokenDetection c t)) in
            _network c' = _network c /\ web3 c' = web3 c
            /\ _tokenList c' = _tokenList c
            /\ _keyringMemStore c' = _keyringMemStore c
            /\ assetsContractController c' = assetsContractController c
            /\ tokensController c' = tokensController c
            /\ _trackMetaMetricsEvent c' = _trackMetaMetricsEvent c).
  { intros c t. unfold restartTokenDetection. destruct (negb _);
      [cbn; tauto|].
    unfold set_interval. destruct (DEFAULT_INTERVAL =? 0)%Z; cbn; tauto. }
  cbv zeta. destruct op; cbn [step].
  - unfold set_interval. destruct (interval =? 0)%Z; cbn; tauto.
  - destruct network; cbn; repeat split; auto; try discriminate; tauto.
  - destruct store; cbn; repeat split; auto; try discriminate; tauto.
  - destruct list; cbn; repeat split; auto; try discriminate; tauto.
  - destruct (Hr this timers) as (-> & -> & -> & -> & -> & -> & ->). tauto.
  - cbn. tauto.
  - unfold onPreferencesChange. destruct (_ || _); [|cbn; tauto].
    destruct (Hr (with_preferences this (state_selectedAddress state)
                    (state_useTokenDetection state)) timers)
      as (-> & -> & -> & -> & -> & -> & ->). cbn. tauto.
  - cbn. tauto.
  - unfold onKeyringMemStoreChange. destruct (negb _); [|cbn; tauto].
    destruct (truthy_bool unlocked); [|cbn; tauto].
    destruct (Hr (with_isUnlocked this unlocked) timers)
      as (-> & -> & -> & -> & -> & -> & ->). cbn. tauto.
Qed.

End Lifetime.

Section LifetimeCollaborators.

Context {imports : Imports}.

(** X7.  Collaborators are never lost.  From construction on, through
    any sequence of operations: a [Web3] exists exactly when a network is
    set; a network, a token list and a keyring store given to the
    constructor stay set, a falsy assignment being ignored; the oracle
    collaborator, the tokens controller and the telemetry hook are the
    ones the constructor received, no method reassigns them. *)
Theorem lifetime_keeps_collaborators (config : Config) (ops : list Operation) :
  let this := fst (fst (lifetime config ops)) in
  (_network this = None <-> web3 this = None)
  /\ (config_network config <> None -> _network this <> None)
  /\ (config_tokenList config <> None -> _tokenList this <> None)
  /\ (config_keyringMemStore config <> None -> _keyringMemStore this <> None)
  /\ assetsContractController this = config_assetsContractController config
  /\ tokensController this = presence (config_tokensController config)
  /\ _trackMetaMetricsEvent this = config_trackMetaMetricsEvent config.
Proof.
  cbv zeta. unfold lifetime.
  set (P := fun (c : Controller) (_ : Timers) =>
    (_network c = None <-> web3 c = None)
    /\ (config_network config <> None -> _network c <> None)
    /\ (config_tokenList config <> None -> _tokenList c <> None)
    /\ (config_keyringMemStore config <> None -> _keyringMemStore c <> None)
    /\ assetsContractController c = config_assetsContractController config
    /\ tokensController c = presence (config_tokensController config)
    /\ _trackMetaMetricsEvent c = config_trackMetaMetricsEvent config).
  assert (H0 : P (fst (fst (constructor config
                              {| next_handle := 0; running := [] |})))
                 (snd (fst (constructor config
                              {| next_handle := 0; running := [] |})))).
  { unfold P, constructor. destruct (set_interval blank _ _).
    cbn. repeat split; auto. }
  destruct (constructor config _) as [[this timers] subs].
  cbn [fst snd] in H0.
  refine (proj1 (steps_keep P (fun _ => True) _ ops this timers H0)).
  intros op c t (H1 & H2 & H3 & H4 & H5 & H6 & H7).
  split; [|apply Forall_forall; auto].
  destruct (step_collaborators op c t) as (S1 & S2 & S3 & S4 & S5 & S6 & S7).
  unfold P. rewrite S5, S6, S7. repeat split; auto.
  - apply S1; exact H1.
  - apply S1; exact H1.
Qed.

End LifetimeCollaborators.

(** ** What a tick does and never does *)

Lemma catalog_reads_app (e1 e2 : list Event) :
  catalog_reads (e1 ++ e2) = catalog_reads e1 ++ catalog_reads e2.
Proof.
  induction e1 as [|ev e1 IH]; [reflexivity|].
  destruct ev; cbn [app catalog_reads]; now rewrite IH.
Qed.

Lemma prelude_projections (env : Environment) (n : nat) :
  oracle_calls (firstn n (prelude env)) = []
  /\ telemetry (firstn n (prelude env)) = []
  /\ store_writes (firstn n (prelude env)) = []
  /\ warnings (firstn n (prelude env)) = []
  /\ store_rejections (firstn n (prelude env)) = []
  /\ length (catalog_reads (firstn n (prelude env))) <= 1.
Proof.
  unfold prelude. destruct n as [|[|[|n]]]; cbn; try rewrite firstn_nil;
    repeat split; auto.
Qed.

Section TickProperties.

Context {imports : Imports}.
Variable env : Environment.
Variable this : Controller.

(** X8.  Bounds of a tick.  Whatever the controller and the
    environment, one run of [detectNewTokens] reads the catalog at most
    once, calls the oracle at most twice, logs at most one warning, emits
    at most one telemetry event per oracle call and writes to the store
    at most once per telemetry event; it never writes an empty list of
    tokens. *)
Theorem tick_is_bounded (past : list Event) :
  let evs := fst (run env past (detectNewTokens this)) in
  length (catalog_reads evs) <= 1
  /\ length (oracle_calls evs) <= 2
  /\ length (warnings evs) <= 1
  /\ length (telemetry evs) <= length (oracle_calls evs)
  /\ length (store_writes evs) <= length (telemetry evs)
  /\ Forall (fun tokensWithBalance => tokensWithBalance <> []) (store_writes evs).
Proof.
  cbv zeta.
  destruct (tick_shape env this past) as [(n & Hn & _)|(candidates & _ & Hr)].
  - rewrite Hn.
    destruct (prelude_projections env n) as (-> & -> & -> & -> & _ & Hc).
    cbn. repeat split; auto.
  - rewrite Hr. cbn [fst]. unfold prelude.
    cbn [app catalog_reads oracle_calls warnings telemetry store_writes].
    destruct (loop_trace_counts this (tokenList_state env) _ _ _
                (run_forEachSlice_trace env this (tokenList_state env)
                   (sliceOfTokensToDetect candidates)
                   (past ++ [ChainIdRead (provider_chainId env);
                             TokenListRead (tokenList_state env);
                             ProviderSet])))
      as (Hcalls & Hreads & Hwarn & Hwrites & Htel & Hne).
    rewrite Hreads. unfold sliceOfTokensToDetect in Hcalls.
    cbn [length] in Hcalls |- *.
    repeat split; auto.
Qed.

(** X9.  What reaches the store.  In every run of [detectNewTokens] each
    store write was announced: the telemetry events, in order, are the
    events listing the "symbol - address" lines of the successive store
    writes, followed by at most one more (the one whose write did not
    take place).  Every object written is built from what the catalog
    read in that run holds under some key: it is the token of the catalog
    entry under that key, or, for a name inherited from
    [Object.prototype] that is no key of the catalog, the object with
    undefined fields. *)
Theorem writes_are_announced_catalog_tokens (past : list Event) :
  let evs := fst (run env past (detectNewTokens this)) in
  (exists extra,
     telemetry evs = map announcement (store_writes evs) ++ extra
     /\ length extra <= 1)
  /\ Forall
       (Forall (fun t =>
                  exists key,
                    (exists entry,
                       getOwnProperty (tokenList_state env) key = Some entry
                       /\ t = TokenOf (discovery entry))
                    \/ (getOwnProperty (tokenList_state env) key = None
                        /\ In key Object_prototype
                        /\ t = UndefinedToken)))
       (store_writes evs).
Proof.
  cbv zeta.
  destruct (tick_shape env this past) as [(n & Hn & _)|(candidates & _ & Hr)].
  - rewrite Hn.
    destruct (prelude_projections env n) as (_ & -> & -> & _).
    split; [exists []; split; [reflexivity | cbn; lia] | constructor].
  - rewrite Hr. cbn [fst]. unfold prelude.
    cbn [app telemetry store_writes].
    eapply loop_trace_announced. apply run_forEachSlice_trace.
Qed.

(** X10.  How a tick ends on a failure.  A store write that is rejected
    is the last event of the run, and the method rejects with the
    store's error: no later batch is fetched and nothing is logged.  A
    warning, when there is one, is the last event and the method
    resolves.  A run that rejects has logged no warning. *)
Theorem tick_failures_are_final (past : list Event) :
  let evs := fst (run env past (detectNewTokens this)) in
  let out := snd (run env past (detectNewTokens this)) in
  (store_rejections evs = []
   \/ exists pre tokensWithBalance e,
        evs = pre ++ [DetectedTokensAdded tokensWithBalance (StoreRejects e)]
        /\ out = Rejected e
        /\ store_rejections pre = []
        /\ warnings pre = [])
  /\ (warnings evs = []
      \/ exists pre message error,
           evs = pre ++ [Warned message error]
           /\ out = Resolved
           /\ warnings pre = [])
  /\ (forall e, out = Rejected e -> warnings evs = []).
Proof.
  cbv zeta.
  destruct (tick_shape env this past) as [(n & Hn & _)|(candidates & _ & Hr)].
  - rewrite Hn.
    destruct (prelude_projections env n) as (_ & _ & _ & Hw & Hrej & _).
    auto.
  - rewrite Hr. cbn [fst snd].
    pose proof (run_forEachSlice_trace env this (tokenList_state env)
                  (sliceOfTokensToDetect candidates) (past ++ prelude env))
      as Ht.
    set (loop := run env (past ++ prelude env) _) in *.
    assert (Hpre : forall evs, warnings (prelude env ++ evs) = warnings evs)
      by reflexivity.
    assert (Hpre' : forall evs,
              store_rejections (prelude env ++ evs) = store_rejections evs)
      by reflexivity.
    split; [|split].
    + destruct (loop_trace_rejection this _ _ _ _ Ht)
        as [[Hrej _]|(pre & toks & e & Hevs & Hout & Hrej & Hw)].
      * left. now rewrite Hpre'.
      * right. exists (prelude env ++ pre), toks, e.
        rewrite Hevs, app_assoc, Hpre', Hpre. auto.
    + destruct (warnings (fst loop)) as [|w ws] eqn:Hw.
      * left. now rewrite Hpre.
      * right.
        destruct (loop_trace_warning this _ _ _ _ Ht)
          as (Hout & pre & m & e & Hevs & Hp); [congruence|].
        exists (prelude env ++ pre), m, e.
        rewrite Hevs, app_assoc, Hpre. auto.
    + intros e Hout. rewrite Hpre.
      destruct (loop_trace_rejection this _ _ _ _ Ht)
        as [[_ Hw]|(pre & toks & e' & Hevs & _ & _ & Hw)].
      * now apply (Hw e).
      * rewrite Hevs, warnings_app, Hw. reflexivity.
Qed.

(** X11.  The oracle is asked about unknown tokens only.  With the three
    mirrors set and no empty string among the catalog addresses, every
    address sent to the oracle in a run of [detectNewTokens] is a key of
    the catalog read in that run that no held, hidden or detected
    address equals up to case; and, the catalog keys being distinct, no
    address is sent twice in the run. *)
Theorem oracle_is_asked_about_unknown_tokens_only
    (past : list Event) (held hidden : list string) (detected : list Token) :
  tokenAddresses this = Some held ->
  hiddenTokens this = Some hidden ->
  detectedTokens this = Some detected ->
  ~ In "" (Object_keys (tokenList_state env)) ->
  let evs := fst (run env past (detectNewTokens this)) in
  (forall tokensSlice a,
     In tokensSlice (oracle_calls evs) -> In a tokensSlice ->
     In a (Object_keys (tokenList_state env))
     /\ known_in held a = false
     /\ known_in hidden a = false
     /\ known_in (map address detected) a = false)
  /\ (NoDup (Object_keys (tokenList_state env)) ->
      NoDup (concat (oracle_calls evs))).
Proof.
  intros Hh Hi Hd Hne. cbv zeta.
  destruct (tick_shape env this past) as [(n & Hn & _)|(candidates & Hc & Hr)].
  - rewrite Hn. destruct (prelude_projections env n) as (-> & _).
    split; [intros b a [] | intros _; constructor].
  - rewrite (tokensToDetect_candidate_list this held hidden detected
               Hh Hi Hd _ Hne) in Hc.
    injection Hc as <-.
    rewrite Hr. cbn [fst]. unfold prelude. cbn [app oracle_calls].
    destruct (oracle_calls_initial_segment env this (tokenList_state env)
                (sliceOfTokensToDetect
                   (candidate_list (tokenList_state env) held hidden detected))
                (past ++ [ChainIdRead (provider_chainId env);
                          TokenListRead (tokenList_state env);
                          ProviderSet]))
      as [n Hn].
    rewrite Hn. split.
    + intros b a Hb Ha. apply In_firstn in Hb.
      apply candidate_list_In. now apply (slices_incl _ b).
    + intro Hnd.
      assert (Hcand : NoDup (candidate_list (tokenList_state env)
                               held hidden detected))
        by (unfold candidate_list; now apply NoDup_filter).
      pose proof (NoDup_slices _ Hcand) as Hall.
      rewrite sliceOfTokensToDetect_eq in Hall |- *.
      cbn [concat] in Hall. rewrite app_nil_r in Hall.
      destruct n as [|[|n]]; cbn [firstn concat].
      * constructor.
      * rewrite app_nil_r. now apply NoDup_app_remove_r in Hall.
      * destruct n; cbn [firstn concat]; now rewrite app_nil_r.
Qed.

End TickProperties.

(** ** Ticks with a collaborator or an input missing *)

Section EdgeTicks.

Context {imports : Imports}.

(** The tests a tick passes before it computes the candidates. *)
Definition reaches_candidates (this : Controller) (env : Environment) : bool :=
  isActive this
  && truthy_bool (useTokenDetection this)
  && truthy_object (_network this)
  && isTokenDetectionEnabledForNetwork (provider_chainId env)
  && truthy_object (_tokenList this)
  && truthy_object (web3 this).

Lemma run_detectNewTokens_candidates
    (env : Environment) (this : Controller) (past : list Event) :
  reaches_candidates this env = true ->
  run env past (detectNewTokens this)
  = match tokensToDetect this (tokenList_state env) with
    | inl e => (prelude env, Rejected e)
    | inr candidates =>
      (prelude env
         ++ fst (run env (past ++ prelude env)
                   (forEachSlice this (tokenList_state env)
                      (sliceOfTokensToDetect candidates))),
       snd (run env (past ++ prelude env)
              (forEachSlice this (tokenList_state env)
                 (sliceOfTokensToDetect candidates))))
    end.
Proof.
  unfold reaches_candidates. rewrite !andb_true_iff.
  intros (((((Hgate & Huse) & Hnet) & Hen) & Hlist) & Hweb).
  destruct (tokensToDetect this (tokenList_state env)) as [e|candidates] eqn:Hc.
  - unfold detectNewTokens. rewrite Hgate, Huse. cbn [negb].
    destruct (_network this); [|discriminate]. cbn [run].
    rewrite Hen. cbn [negb].
    destruct (_tokenList this); [|discriminate]. cbn [run].
    destruct (web3 this); [|discriminate]. cbn [run].
    now rewrite Hc.
  - apply run_detectNewTokens_enabled; auto.
    + now destruct (_network this).
    + now destruct (_tokenList this).
    + now destruct (web3 this).
Qed.

(** X12.  Without the oracle collaborator.  When
    [assetsContractController] is null, the constructor's default, no run
    of [detectNewTokens] calls the oracle, emits telemetry or writes to
    the store; a tick that gets as far as the batch loop logs the
    fetch-failed warning once, for the [TypeError] of the call through
    null, and resolves. *)
Theorem tick_without_oracle_collaborator
    (env : Environment) (this : Controller) (past : list Event) :
  assetsContractController this = None ->
  let evs := fst (run env past (detectNewTokens this)) in
  oracle_calls evs = []
  /\ telemetry evs = []
  /\ store_writes evs = []
  /\ (forall candidates,
        reaches_candidates this env = true ->
        tokensToDetect this (tokenList_state env) = inr candidates ->
        run env past (detectNewTokens this)
        = (prelude env
             ++ [Warned fetch_failed_message
                   (TypeError "this.assetsContractController")],
           Resolved)).
Proof.
  intros Hnull. cbv zeta.
  assert (Hloop : forall past' tokenList candidates,
            run env past' (forEachSlice this tokenList
                             (sliceOfTokensToDetect candidates))
            = ([Warned fetch_failed_message
                  (TypeError "this.assetsContractController")],
               Resolved)).
  { intros. unfold sliceOfTokensToDetect. cbn [forEachSlice].
    now rewrite Hnull. }
  repeat split.
  - destruct (tick_shape env this past) as [(n & Hn & _)|(c & _ & Hr)].
    + rewrite Hn. apply prelude_projections.
    + rewrite Hr, Hloop. reflexivity.
  - destruct (tick_shape env this past) as [(n & Hn & _)|(c & _ & Hr)].
    + rewrite Hn. apply prelude_projections.
    + rewrite Hr, Hloop. reflexivity.
  - destruct (tick_shape env this past) as [(n & Hn & _)|(c & _ & Hr)].
    + rewrite Hn. apply prelude_projections.
    + rewrite Hr, Hloop. reflexivity.
  - intros candidates Hreach Hc.
    rewrite run_detectNewTokens_candidates by exact Hreach.
    now rewrite Hc, Hloop.
Qed.

(** X13.  Without the mirrors.  When [tokenAddresses] is undefined (no
    tokens controller was given and no notification came), candidate
    selection throws at the first catalog key, so a tick that gets that
    far over a non-empty catalog rejects with that [TypeError] right
    after its three reads, before any oracle call; over an empty catalog
    nothing is read from the mirrors and the candidate list is empty. *)
Theorem candidate_selection_needs_mirrors
    (env : Environment) (this : Controller) (past : list Event) :
  tokenAddresses this = None ->
  tokensToDetect this [] = inr []
  /\ (forall tokenList,
        tokenList <> [] ->
        tokensToDetect this tokenList = inl (TypeError "this.tokenAddresses"))
  /\ (reaches_candidates this env = true ->
      tokenList_state env <> [] ->
      run env past (detectNewTokens this)
      = (prelude env, Rejected (TypeError "this.tokenAddresses"))).
Proof.
  intro Hnone.
  assert (Hthrow : forall tokenList,
            tokenList <> [] ->
            tokensToDetect this tokenList
            = inl (TypeError "this.tokenAddresses")).
  { intros [|[k d] tokenList] Hne; [contradiction|].
    unfold tokensToDetect. cbn [Object_keys map fst tokensToDetect_loop].
    unfold isUnknownToken. now rewrite Hnone. }
  split; [reflexivity|]. split; [exact Hthrow|].
  intros Hreach Hne.
  rewrite run_detectNewTokens_candidates by exact Hreach.
  now rewrite (Hthrow _ Hne).
Qed.

Lemma found_under_empty (key : string) (t : TokenWithBalance) :
  found_under [] key t -> In key Object_prototype /\ t = UndefinedToken.
Proof.
  intros [(entry & H & _)|(_ & Hin & ->)]; [discriminate | now split].
Qed.

(** An oracle that answers within the batch has nothing to say about an
    empty batch. *)
Lemma run_forEachSlice_nothing_asked
    (env : Environment) (this : Controller) (tokenList : TokenList)
    (slices : list (list string)) :
  answers_within_batch env ->
  Forall (fun s => s = []) slices ->
  forall past,
    telemetry (fst (run env past (forEachSlice this tokenList slices))) = []
    /\ store_writes (fst (run env past (forEachSlice this tokenList slices)))
       = [].
Proof.
  intros Hcontract Hall.
  induction Hall as [|s slices -> _ IH]; intro past; [split; reflexivity|].
  destruct (assetsContractController this) eqn:Hset.
  2:{ cbn [forEachSlice]. rewrite Hset. split; reflexivity. }
  rewrite run_forEachSlice_cons by congruence. cbv zeta.
  destruct (getBalancesInSingleCall env past (selectedAddress this) [])
    as [error|result] eqn:Hresp; [split; reflexivity|].
  assert (Hnone : result = None \/ result = Some []).
  { destruct result as [[|[k b] balances]|]; auto.
    exfalso. apply (Hcontract _ _ _ _ Hresp k). now left. }
  unfold after, and_then, reconciled.
  destruct Hnone as [->| ->];
    cbn [reconcile Object_keys map collectTokensWithBalance length Nat.ltb
         Nat.leb run fst snd app telemetry store_writes];
    apply IH.
Qed.

(** X14.  An empty catalog.  A tick that gets as far as the batch loop
    over an empty catalog, with the oracle collaborator set, still calls
    the oracle, with an empty list of tokens, whatever the mirrors hold
    (even undefined); a run that resolves without a warning made two
    such calls.  Whatever it writes is an object with undefined fields,
    found under a name inherited from [Object.prototype]; and when the
    oracle answers about the tokens it is asked about only, the tick
    emits no telemetry and writes nothing. *)
Theorem tick_over_empty_catalog
    (env : Environment) (this : Controller) (past : list Event) :
  tokenList_state env = [] ->
  reaches_candidates this env = true ->
  assetsContractController this <> None ->
  let evs := fst (run env past (detectNewTokens this)) in
  let out := snd (run env past (detectNewTokens this)) in
  (exists more, oracle_calls evs = [] :: more)
  /\ (out = Resolved -> warnings evs = [] -> oracle_calls evs = [[]; []])
  /\ Forall (Forall (fun t => t = UndefinedToken)) (store_writes evs)
  /\ (answers_within_batch env -> telemetry evs = [] /\ store_writes evs = []).
Proof.
  intros Hempty Hreach Hset. cbv zeta.
  rewrite run_detectNewTokens_candidates by exact Hreach.
  rewrite Hempty. cbn [tokensToDetect Object_keys map tokensToDetect_loop].
  change (sliceOfTokensToDetect []) with [@nil string; @nil string].
  cbn [fst snd]. unfold prelude.
  cbn [app oracle_calls warnings telemetry store_writes].
  split; [|split; [|split]].
  - apply oracle_calls_first. exact Hset.
  - apply oracle_calls_complete.
  - pose proof (run_forEachSlice_trace env this [] [[]; []]
                  (past ++ [ChainIdRead (provider_chainId env);
                            TokenListRead (tokenList_state env);
                            ProviderSet])) as Ht.
    apply loop_trace_announced in Ht. destruct Ht as [_ Hall].
    eapply Forall_impl; [|exact Hall].
    intros w Hw. eapply Forall_impl; [|exact Hw].
    intros t [key Hkey]. now apply found_under_empty in Hkey.
  - intro Hcontract. apply run_forEachSlice_nothing_asked; [exact Hcontract|].
    repeat constructor.
Qed.

End EdgeTicks.

(** ** The interval setter and the order of notifications *)

Section Cadence.

Context {imports : Imports}.

(** X15.  The interval setter re-arms.  With the table holding only the
    controller's timer, assigning an interval leaves no timer when the
    interval is zero (polling stops) and otherwise exactly one timer, a
    new one with the given period; the timer that was running before is
    gone in both cases. *)
Theorem interval_setter_rearms
    (this : Controller) (interval : Z) (timers : Timers) :
  one_timer this timers ->
  running (snd (set_interval this interval timers))
  = (if (interval =? 0)%Z then [] else [(next_handle timers, interval)])
  /\ (interval <> 0%Z ->
      _handle (fst (set_interval this interval timers))
      = Some (next_handle timers)).
Proof.
  intro Hone. pose proof (cleared_none this timers Hone) as Hc.
  destruct (Z.eqb_spec interval 0) as [->|Hi].
  - rewrite set_interval_idle. cbn [snd]. split; [exact Hc | now intros []].
  - rewrite set_interval_armed by exact Hi. cbn [fst snd running].
    now rewrite Hc.
Qed.

(** X16.  A preference change while locked is picked up on unlock.  With
    the view open and the session locked, a preferences notification
    that selects an account starts no run; the unlock notification that
    follows starts exactly one, and that run is [detectNewTokens] on the
    controller holding the delivered account and detection preference,
    with the gate open. *)
Theorem unlock_runs_for_the_delivered_account
    (this : Controller) (timers : Timers) (state : PreferencesState) :
  truthy_bool (isOpen this) = true ->
  truthy_bool (isUnlocked this) = false ->
  truthy_string (state_selectedAddress state) = true ->
  let first := onPreferencesChange this timers state in
  let second :=
    onKeyringMemStoreChange (fst (fst first)) (snd (fst first)) (Some true) in
  snd first = []
  /\ exists current,
       snd second = [detectNewTokens current]
       /\ selectedAddress current = state_selectedAddress state
       /\ useTokenDetection current = state_useTokenDetection state
       /\ isActive current = true.
Proof.
  intros Hopen Hlocked Hsel. cbv zeta.
  assert (Hclosed : forall c,
            isOpen c = isOpen this -> isUnlocked c = isUnlocked this ->
            isActive c = false).
  { intros c E1 E2. unfold isActive. rewrite E1, E2, Hlocked.
    apply andb_false_r. }
  assert (Hfirst :
            onPreferencesChange this timers state = (this, timers, [])
            \/ onPreferencesChange this timers state
               = (with_preferences this (state_selectedAddress state)
                    (state_useTokenDetection state), timers, [])).
  { unfold onPreferencesChange. destruct (_ || _); [|now left].
    right. unfold restartTokenDetection.
    now rewrite (Hclosed (with_preferences this (state_selectedAddress state)
                            (state_useTokenDetection state))
                   eq_refl eq_refl). }
  assert (Hmirror :
            selectedAddress (fst (fst (onPreferencesChange this timers state)))
            = state_selectedAddress state
            /\ useTokenDetection
                 (fst (fst (onPreferencesChange this timers state)))
               = state_useTokenDetection state).
  { unfold onPreferencesChange.
    destruct (strict_eq_string _ _) eqn:E1;
      destruct (strict_eq_bool _ _) eqn:E2; cbn [negb orb].
    1:{ apply strict_eq_string_spec in E1. apply strict_eq_bool_spec in E2.
        cbn. auto. }
    all: unfold restartTokenDetection;
      rewrite (Hclosed (with_preferences this (state_selectedAddress state)
                          (state_useTokenDetection state))
                 eq_refl eq_refl);
      cbn; auto. }
  destruct Hmirror as [M1 M2].
  assert (Hkeep :
            isOpen (fst (fst (onPreferencesChange this timers state)))
            = isOpen this
            /\ isUnlocked (fst (fst (onPreferencesChange this timers state)))
               = isUnlocked this
            /\ snd (onPreferencesChange this timers state) = []).
  { destruct Hfirst as [-> | ->]; cbn; auto. }
  destruct Hkeep as (K1 & K2 & K3).
  split; [exact K3|].
  destruct (onPreferencesChange this timers state) as [[c1 t1] r1].
  cbn [fst snd] in *.
  exists (with_isUnlocked c1 (Some true)).
  assert (Hne : strict_eq_bool (isUnlocked c1) (Some true) = false).
  { rewrite K2. destruct (isUnlocked this) as [[]|]; try reflexivity.
    discriminate Hlocked. }
  unfold onKeyringMemStoreChange. rewrite Hne. cbn [negb truthy_bool].
  assert (Hgate : isActive (with_isUnlocked c1 (Some true)) = true).
  { unfold isActive. cbn [isOpen isUnlocked with_isUnlocked truthy_bool].
    now rewrite K1, Hopen. }
  unfold restartTokenDetection.
  cbn [selectedAddress with_isUnlocked]. rewrite Hgate, M1, Hsel.
  cbn [andb negb].
  destruct (set_interval _ DEFAULT_INTERVAL t1). cbn [snd].
  repeat split; auto.
Qed.

End Cadence.

Lemma last_In {A : Type} (l : list A) (d : A) : l <> [] -> In (last l d) l.
Proof.
  intro Hne. rewrite (app_removelast_last d Hne) at 2.
  apply in_or_app. right. now left.
Qed.

(** * Concrete runs *)

#[local] Existing Instance sample_imports.

(** ** Inputs at which the specification's wording fails *)



(** C2 with the empty string as a catalog key: it is held and hidden,
    and still the candidate list starts with it.  [find] returns the
    matching element, and the negation reads the one falsy string as no
    match. *)
Lemma empty_address_is_a_candidate_though_known :
  tokenAddresses empty_key_controller = Some [""]
  /\ hiddenTokens empty_key_controller = Some [""]
  /\ known_in [""] "" = true
  /\ tokensToDetect empty_key_controller empty_key_catalog
     = inr [""; "0xaaa1"].
Proof. repeat split. Qed.


(** C5 without the telemetry hook, a controller the constructor accepts:
    the batch result gives one discovery, and reconciling it reports
    nothing and stores nothing; the run is left by the [TypeError] of
    calling the missing hook. *)
Lemma discovery_without_hook_is_not_stored :
  discoveries abc_catalog (Some [("0xccc3", 5%N)])
  = inr (["CCC - 0xccc3"], [TokenOf (discovery (entry_of "0xccc3" "CCC"))])
  /\ run (quiet_env abc_catalog) []
       (reconcile no_hook_controller abc_catalog
          (Some [("0xccc3", 5%N)]) Resolve)
     = ([], Rejected (TypeError "this._trackMetaMetricsEvent"))
  /\ run (second_call_fails_env abc_catalog) []
       (detectNewTokens no_hook_controller)
     = (prelude (second_call_fails_env abc_catalog)
          ++ [BalancesFetched (Some "0xacc0") ["0xaaa1"; "0xbbb2"; "0xccc3"]
                (OracleReturns (Some [("0xaaa1", 5%N)]))],
        Rejected (TypeError "this._trackMetaMetricsEvent")).
Proof. repeat split. Qed.

(** C10 with the gate open, the preference on, detection not enabled
    for the chain, and no network collaborator: the run does not return,
    it is left by the [TypeError] of reading the chain id. *)
Lemma run_without_network_throws :
  isActive no_network_controller = true
  /\ truthy_bool (useTokenDetection no_network_controller) = true
  /\ isTokenDetectionEnabledForNetwork
       (provider_chainId (other_chain_env abc_catalog)) = false
  /\ run (other_chain_env abc_catalog) []
       (detectNewTokens no_network_controller)
     = ([], Rejected (TypeError "this._network")).
Proof. repeat split. Qed.

(** C6 with the gate open and no account selected: no run is started
    and the timers are not touched. *)
Lemma restart_without_account_is_noop :
  isActive no_account_controller = true
  /\ restartTokenDetection no_account_controller no_timers
     = (no_account_controller, no_timers, []).
Proof. split; reflexivity. Qed.

(** C8 with no collaborator at all: the constructor returns a controller
    and its timer is running, with the default interval as well as with
    a given one. *)
Lemma constructor_without_collaborators_arms_timer :
  constructor empty_config no_timers
  = (with_handle blank (Some 0),
     {| next_handle := 1; running := [(0, 180000%Z)] |},
     [])
  /\ constructor interval_only_config no_timers
     = (with_handle blank (Some 0),
        {| next_handle := 1; running := [(0, 5000%Z)] |},
        []).
Proof. split; reflexivity. Qed.

(** ** The theorems at sample inputs *)


Lemma candidate_list_excludes_known_witness :
  ~ In "" (Object_keys abc_catalog)
  /\ tokensToDetect abc_controller abc_catalog = inr ["0xccc3"]
  /\ tokensToDetect
       (with_known_tokens sample_controller ["0xaaa1"] ["0xbbb2"] [])
       abc_catalog
     = inr ["0xccc3"].
Proof.
  assert (Hne : ~ In "" (Object_keys abc_catalog))
    by (intros [H|[H|[H|[]]]]; discriminate).
  split; [exact Hne|]. split.
  - exact (proj1 (candidate_list_excludes_known abc_controller abc_catalog
                    ["0xAAA1"] ["0xbbb2"] [] eq_refl eq_refl eq_refl Hne)).
  - exact (proj2 (proj2 (candidate_list_excludes_known
                           (with_known_tokens sample_controller
                              ["0xaaa1"] ["0xbbb2"] [])
                           abc_catalog ["0xaaa1"] ["0xbbb2"] []
                           eq_refl eq_refl eq_refl Hne))
             "0xaaa1" "0xbbb2" "0xccc3" _ _ _
             eq_refl eq_refl eq_refl eq_refl eq_refl eq_refl).
Defined.

Lemma closed_gate_tick_is_noop_witness :
  truthy_bool (isUnlocked locked_controller) = false
  /\ run (quiet_env abc_catalog) [] (onInterval locked_controller)
     = ([], Resolved)
  /\ restartTokenDetection locked_controller no_timers
     = (locked_controller, no_timers, []).
Proof.
  split; [reflexivity|].
  destruct (closed_gate_tick_is_noop locked_controller (or_introl eq_refl))
    as [Hrun Hrestart].
  split; [exact (proj1 (Hrun (quiet_env abc_catalog) []))
         | exact (Hrestart no_timers)].
Defined.

Lemma detection_off_run_is_silent_witness :
  truthy_bool (useTokenDetection detection_off_controller) = false
  /\ run (quiet_env abc_catalog) [] (detectNewTokens detection_off_controller)
     = ([], Resolved)
  /\ isTokenDetectionEnabledForNetwork "0x5" = false
  /\ catalog_reads
       (fst (run {| provider_chainId := "0x5";
                    tokenList_state := abc_catalog;
                    getBalancesInSingleCall := fun _ _ _ => OracleReturns None;
                    addDetectedTokens := fun _ _ => StoreResolves |}
               [] (detectNewTokens sample_controller)))
     = []
  /\ oracle_calls
       (fst (run {| provider_chainId := "0x5";
                    tokenList_state := abc_catalog;
                    getBalancesInSingleCall := fun _ _ _ => OracleReturns None;
                    addDetectedTokens := fun _ _ => StoreResolves |}
               [] (detectNewTokens sample_controller)))
     = []
  /\ snd (run (other_chain_env abc_catalog) []
            (detectNewTokens no_network_controller))
     = Rejected (TypeError "this._network").
Proof.
  split; [reflexivity|]. split; [reflexivity|]. split; [reflexivity|].
  assert (Hother : ~ (truthy_bool (useTokenDetection no_network_controller)
                      = true
                      /\ isTokenDetectionEnabledForNetwork
                           (provider_chainId (other_chain_env abc_catalog))
                         = true))
    by (intros [_ E]; discriminate E).
  pose proof (detection_off_run_is_silent no_network_controller
                (other_chain_env abc_catalog) [] Hother) as Hthrows.
  cbv zeta in Hthrows.
  destruct Hthrows as (_ & _ & _ & _ & _ & _ & _ & Hthrows).
  pose proof (detection_off_run_is_silent sample_controller
                {| provider_chainId := "0x5";
                   tokenList_state := abc_catalog;
                   getBalancesInSingleCall := fun _ _ _ => OracleReturns None;
                   addDetectedTokens := fun _ _ => StoreResolves |}
                []) as H.
  cbv zeta in H.
  assert (Hoff : ~ (truthy_bool (useTokenDetection sample_controller) = true
                    /\ isTokenDetectionEnabledForNetwork "0x5" = true))
    by (intros [_ E]; discriminate E).
  destruct (H Hoff) as (H1 & H2 & _).
  split; [exact H1|]. split; [exact H2|].
  exact (Hthrows eq_refl eq_refl eq_refl).
Defined.

Lemma reconcile_one_event_one_write_witness :
  discoveries abc_catalog (Some [("0xccc3", 5%N)])
  = inr (["CCC - 0xccc3"], [TokenOf (discovery (entry_of "0xccc3" "CCC"))])
  /\ run (quiet_env abc_catalog) []
       (reconcile sample_controller abc_catalog (Some [("0xccc3", 5%N)]) Resolve)
     = ([Tracked
           {| event := "Token Detected";
              category := "Wallet";
              properties :=
                {| tokens := ["CCC - 0xccc3"];
                   token_standard := "ERC20";
                   asset_type := "TOKEN" |} |};
         DetectedTokensAdded
           [TokenOf (discovery (entry_of "0xccc3" "CCC"))] StoreResolves],
        Resolved)
  /\ discoveries abc_catalog (Some [("constructor", 1%N)])
     = inr (["undefined - undefined"], [UndefinedToken])
  /\ run (constructor_env abc_catalog) []
       (reconcile sample_controller abc_catalog
          (Some [("constructor", 1%N)]) Resolve)
     = ([Tracked
           {| event := "Token Detected";
              category := "Wallet";
              properties :=
                {| tokens := ["undefined - undefined"];
                   token_standard := "ERC20";
                   asset_type := "TOKEN" |} |};
         DetectedTokensAdded [UndefinedToken] StoreResolves],
        Resolved)
  /\ run (quiet_env abc_catalog) []
       (reconcile sample_controller abc_catalog (Some [("0xddd4", 5%N)]) Resolve)
     = ([], Rejected (TypeError "tokenList[nonZeroTokenAddress]")).
Proof.
  assert (Hhook : _trackMetaMetricsEvent sample_controller <> None)
    by discriminate.
  assert (Hstore : tokensController sample_controller <> None)
    by discriminate.
  split; [reflexivity|]. split; [|split; [reflexivity|split]].
  - refine (proj1 (proj2
              (proj1
                 (reconcile_one_event_one_write (quiet_env abc_catalog)
                    sample_controller abc_catalog [] (Some [("0xccc3", 5%N)])
                    Hhook Hstore)
                 ["CCC - 0xccc3"]
                 [TokenOf (discovery (entry_of "0xccc3" "CCC"))]
                 eq_refl)) _).
    discriminate.
  - refine (proj1 (proj2
              (proj1
                 (reconcile_one_event_one_write (constructor_env abc_catalog)
                    sample_controller abc_catalog []
                    (Some [("constructor", 1%N)]) Hhook Hstore)
                 ["undefined - undefined"] [UndefinedToken] eq_refl)) _).
    discriminate.
  - exact (proj2 (proj2
             (proj2 (proj2
                (reconcile_one_event_one_write (quiet_env abc_catalog)
                   sample_controller abc_catalog []
                   (Some [("0xddd4", 5%N)]) Hhook Hstore))
                (TypeError "tokenList[nonZeroTokenAddress]") eq_refl))).
Defined.


Lemma abc_catalog_keyed : keyed_by_address abc_catalog.
Proof.
  split.
  - intros key entry [E|[E|[E|[]]]]; now injection E as <- <-.
  - repeat constructor; cbn; intuition discriminate.
Qed.

Lemma failing_env_within_batch (catalog : TokenList) :
  answers_within_batch (failing_env catalog).
Proof. intros past account tokensSlice balances H. discriminate H. Qed.

(** The tick of the sample controller over a catalog of 1002 tokens,
    against the oracle that finds the first token of the first batch and
    fails on the second batch. *)
Lemma sample_loop_1002 :
  run (second_call_fails_env (sample_catalog 1002)) []
    (forEachSlice sample_controller (sample_catalog 1002)
       (sliceOfTokensToDetect (sample_keys 1002)))
  = ([BalancesFetched (Some "0xacc0") (firstn 1000 (sample_keys 1002))
        (OracleReturns (Some [(sample_address 0, 5%N)]));
      Tracked (tokenDetectedEvent [("TKN - " ++ sample_address 0)%string]);
      DetectedTokensAdded
        [TokenOf (discovery (entry_of (sample_address 0) "TKN"))]
        StoreResolves;
      BalancesFetched (Some "0xacc0") [sample_address 1000]
        (OracleThrows (Thrown "timeout"));
      Warned fetch_failed_message (Thrown "timeout")],
     Resolved).
Proof.
  assert (Hset : forall v : option unit, v = Some tt -> v <> None)
    by (intros v ->; discriminate).
  rewrite sample_slices_1002.
  apply (run_two_slices_second_fails
           (second_call_fails_env (sample_catalog 1002))
           sample_controller (sample_catalog 1002) [] _ _
           [(sample_address 0, 5%N)] _ _ _
           (Hset _ eq_refl) (Hset _ eq_refl) (Hset _ eq_refl));
    [|apply collect_sample; lia | discriminate
     | intro p; reflexivity | intro p; reflexivity].
  cbn [getBalancesInSingleCall second_call_fails_env oracle_calls
       selectedAddress sample_controller].
  now rewrite sample_first_of_first_slice.
Qed.


Lemma restart_needs_open_gate_and_account_witness :
  isActive sample_controller = true
  /\ truthy_string (selectedAddress sample_controller) = true
  /\ restartTokenDetection sample_controller no_timers
     = (with_handle sample_controller (Some 0),
        {| next_handle := 1; running := [(0, 180000%Z)] |},
        [detectNewTokens sample_controller]).
Proof.
  split; [reflexivity|]. split; [reflexivity|].
  refine (proj2 (proj2 (proj2
            (restart_needs_open_gate_and_account sample_controller no_timers))
            eq_refl eq_refl) _).
  discriminate.
Defined.

Lemma preference_change_restarts_on_difference_witness :
  onPreferencesChange sample_controller no_timers
    {| state_selectedAddress := Some "0xbeef";
       state_useTokenDetection := Some true |}
  = restartTokenDetection
      (with_preferences sample_controller (Some "0xbeef") (Some true))
      no_timers
  /\ length
       (snd (onPreferencesChange sample_controller no_timers
               {| state_selectedAddress := Some "0xbeef";
                  state_useTokenDetection := Some true |})) = 1
  /\ onPreferencesChange sample_controller no_timers
       {| state_selectedAddress := Some "0xacc0";
          state_useTokenDetection := Some true |}
     = (sample_controller, no_timers, []).
Proof.
  split; [|split].
  - refine (proj1 (proj2
              (preference_change_restarts_on_difference sample_controller
                 no_timers
                 {| state_selectedAddress := Some "0xbeef";
                    state_useTokenDetection := Some true |})) _).
    intros [E _]. discriminate E.
  - reflexivity.
  - exact (proj1
             (preference_change_restarts_on_difference sample_controller
                no_timers
                {| state_selectedAddress := Some "0xacc0";
                   state_useTokenDetection := Some true |})
             eq_refl eq_refl).
Defined.

Lemma constructor_tolerates_missing_collaborators_witness :
  _handle (fst (fst (constructor empty_config no_timers))) = Some 0
  /\ running (snd (fst (constructor empty_config no_timers)))
     = [(0, 180000%Z)]
  /\ tokenAddresses (fst (fst (constructor empty_config no_timers))) = None
  /\ snd (constructor empty_config no_timers) = [].
Proof.
  pose proof (constructor_tolerates_missing_collaborators empty_config no_timers)
    as H.
  cbv zeta in H. destruct H as (Harmed & _ & _ & _ & _ & _ & Htokens & _).
  destruct Harmed as [Hh Hr]; [discriminate|].
  destruct (Htokens eq_refl) as (_ & Hta & _).
  split; [exact Hh|]. split; [exact Hr|]. split; [exact Hta | reflexivity].
Defined.

(** ** The further properties at sample inputs *)

Lemma delivered_discovery_is_not_requeried_witness :
  isEqualCaseInsensitive (entry_address (entry_of "0xccc3" "CCC")) "0xccc3"
  = true
  /\ tokensToDetect (onTokensControllerChange sample_controller third_detected)
       abc_catalog
     = inr ["0xaaa1"; "0xbbb2"]
  /\ ~ In "0xccc3" ["0xaaa1"; "0xbbb2"].
Proof.
  split; [reflexivity|]. split; [reflexivity|].
  refine (delivered_discovery_is_not_requeried sample_controller
            third_detected abc_catalog "0xccc3" (entry_of "0xccc3" "CCC")
            ["0xaaa1"; "0xbbb2"] _ eq_refl _ eq_refl).
  - intros [H|[H|[H|[]]]]; discriminate.
  - left. reflexivity.
Defined.

Lemma restart_replaces_timer_witness :
  one_timer polling_controller five_seconds_timer
  /\ running (snd (fst (restartTokenDetection polling_controller
                          five_seconds_timer)))
     = [(1, 180000%Z)].
Proof.
  assert (Hone : one_timer polling_controller five_seconds_timer).
  { split; [|cbn; lia]. intros h i [E|[]]. now injection E as <- _. }
  split; [exact Hone|].
  refine (proj1 (restart_replaces_timer polling_controller five_seconds_timer
                   Hone eq_refl eq_refl _)).
  discriminate.
Defined.

Lemma oracle_is_asked_about_unknown_tokens_only_witness :
  oracle_calls
    (fst (run (quiet_env abc_catalog) [] (detectNewTokens abc_controller)))
  = [["0xccc3"]; []]
  /\ forall tokensSlice a,
       In tokensSlice
         (oracle_calls
            (fst (run (quiet_env abc_catalog) []
                    (detectNewTokens abc_controller)))) ->
       In a tokensSlice ->
       In a (Object_keys abc_catalog)
       /\ known_in ["0xAAA1"] a = false
       /\ known_in ["0xbbb2"] a = false
       /\ known_in [] a = false.
Proof.
  split; [reflexivity|].
  refine (proj1 (oracle_is_asked_about_unknown_tokens_only
                   (quiet_env abc_catalog) abc_controller []
                   ["0xAAA1"] ["0xbbb2"] [] eq_refl eq_refl eq_refl _)).
  intros [H|[H|[H|[]]]]; discriminate.
Defined.

Lemma tick_without_oracle_collaborator_witness :
  assetsContractController no_oracle_controller = None
  /\ run (quiet_env abc_catalog) [] (detectNewTokens no_oracle_controller)
     = (prelude (quiet_env abc_catalog)
          ++ [Warned fetch_failed_message
                (TypeError "this.assetsContractController")],
        Resolved).
Proof.
  split; [reflexivity|].
  exact (proj2 (proj2 (proj2
           (tick_without_oracle_collaborator (quiet_env abc_catalog)
              no_oracle_controller [] eq_refl)))
           ["0xaaa1"; "0xbbb2"; "0xccc3"] eq_refl eq_refl).
Defined.

Lemma candidate_selection_needs_mirrors_witness :
  tokenAddresses no_mirrors_controller = None
  /\ run (quiet_env abc_catalog) [] (detectNewTokens no_mirrors_controller)
     = (prelude (quiet_env abc_catalog),
        Rejected (TypeError "this.tokenAddresses")).
Proof.
  split; [reflexivity|].
  refine (proj2 (proj2
            (candidate_selection_needs_mirrors (quiet_env abc_catalog)
               no_mirrors_controller [] eq_refl))
            eq_refl _).
  discriminate.
Defined.

Lemma tick_over_empty_catalog_witness :
  reaches_candidates no_mirrors_controller (quiet_env []) = true
  /\ oracle_calls
       (fst (run (quiet_env []) [] (detectNewTokens no_mirrors_controller)))
     = [[]; []].
Proof.
  split; [reflexivity|].
  refine (proj1 (proj2
            (tick_over_empty_catalog (quiet_env []) no_mirrors_controller []
               eq_refl eq_refl _))
            eq_refl eq_refl).
  discriminate.
Defined.

Lemma interval_setter_rearms_witness :
  running (snd (set_interval polling_controller 0 five_seconds_timer)) = []
  /\ running (snd (set_interval polling_controller 7000 five_seconds_timer))
     = [(1, 7000%Z)].
Proof.
  assert (Hone : one_timer polling_controller five_seconds_timer).
  { split; [|cbn; lia]. intros h i [E|[]]. now injection E as <- _. }
  split.
  - exact (proj1 (interval_setter_rearms polling_controller 0
                    five_seconds_timer Hone)).
  - exact (proj1 (interval_setter_rearms polling_controller 7000
                    five_seconds_timer Hone)).
Defined.

Lemma unlock_runs_for_the_delivered_account_witness :
  snd (onPreferencesChange locked_controller no_timers
         {| state_selectedAddress := Some "0xbeef";
            state_useTokenDetection := Some true |})
  = []
  /\ exists current,
       snd (onKeyringMemStoreChange
              (fst (fst (onPreferencesChange locked_controller no_timers
                           {| state_selectedAddress := Some "0xbeef";
                              state_useTokenDetection := Some true |})))
              (snd (fst (onPreferencesChange locked_controller no_timers
                           {| state_selectedAddress := Some "0xbeef";
                              state_useTokenDetection := Some true |})))
              (Some true))
       = [detectNewTokens current]
       /\ selectedAddress current = Some "0xbeef"
       /\ useTokenDetection current = Some true
       /\ isActive current = true.
Proof.
  exact (unlock_runs_for_the_delivered_account locked_controller no_timers
           {| state_selectedAddress := Some "0xbeef";
              state_useTokenDetection := Some true |}
           eq_refl eq_refl eq_refl).
Defined.
